(** * Magic n-gon rings (Project Euler 68): a shallow embedding of [main.py]

    The program enumerates every ordering of 1..2n, keeps the orderings that
    describe a magic n-gon ring in its unique clockwise description, and
    returns the descriptions (sorted in descending string order) together
    with the largest concatenation.

    Integers are [Z], Python lists and tuples are [list], strings are
    [string]; a raised exception is a value of [result]. *)

From Stdlib Require Import ZArith List Bool Ascii String Lia.
From Stdlib Require Import Permutation Sorted OrdersEx Factorial.
Import ListNotations.
Open Scope Z_scope.

(** ** Exceptions and the error monad *)

Inductive exn : Type :=
| AssertionError
| IndexError
| ValueError.

Inductive result (A : Type) : Type :=
| Returned (a : A)
| Raised (e : exn).
Arguments Returned {A} a.
Arguments Raised {A} e.

Definition bind {A B : Type} (m : result A) (k : A -> result B) : result B :=
  match m with
  | Returned a => k a
  | Raised e => Raised e
  end.

Notation "x <- m ;; k" := (bind m (fun x => k))
  (at level 61, m at next level, right associativity).
Notation "' p <- m ;; k" := (bind m (fun x => let p := x in k))
  (at level 61, p pattern, m at next level, right associativity).

Fixpoint mapM {A B : Type} (f : A -> result B) (l : list A) : result (list B) :=
  match l with
  | [] => Returned []
  | a :: t => b <- f a ;; bs <- mapM f t ;; Returned (b :: bs)
  end.

(** ** Python values that can reach [main] as its argument

    Only the dynamic type of the argument and, for an [int], its value are
    observed by the program.  A float is kept as mantissa and exponent. *)

#[warnings="-register-all"]
Inductive pyval : Type :=
| PyNone
| PyBool (b : bool)
| PyInt (z : Z)
| PyFloat (mantissa exponent : Z)
| PyStr (s : string)
| PyList (l : list pyval).

Inductive pytype : Type := TNone | TBool | TInt | TFloat | TStr | TList.

(** [type(v)]: the exact class, so [type(True)] is [bool] and not [int]. *)
Definition type_of (v : pyval) : pytype :=
  match v with
  | PyNone => TNone
  | PyBool _ => TBool
  | PyInt _ => TInt
  | PyFloat _ _ => TFloat
  | PyStr _ => TStr
  | PyList _ => TList
  end.

Definition pytype_eqb (a b : pytype) : bool :=
  match a, b with
  | TNone, TNone | TBool, TBool | TInt, TInt
  | TFloat, TFloat | TStr, TStr | TList, TList => true
  | _, _ => false
  end.

(** [isinstance(v, int)]: [bool] is a subclass of [int]. *)
Definition isinstance_int (v : pyval) : bool :=
  match v with
  | PyInt _ | PyBool _ => true
  | _ => false
  end.

(** ** Built-ins used by the program *)

(** [range(a, b)] *)
Definition range (a b : Z) : list Z :=
  map (fun k => a + Z.of_nat k) (seq 0 (Z.to_nat (b - a))).

(** [l[:k]] *)
Definition slice_to {A : Type} (l : list A) (k : Z) : list A :=
  if 0 <=? k then firstn (Z.to_nat k) l
  else firstn (Z.to_nat (Z.of_nat (List.length l) + k)) l.

(** [l[i]], with Python's negative indices and [IndexError]. *)
Definition getitem (l : list Z) (i : Z) : result Z :=
  let len := Z.of_nat (List.length l) in
  let j := if i <? 0 then len + i else i in
  if (j <? 0) || (len <=? j) then Raised IndexError
  else match nth_error l (Z.to_nat j) with
       | Some x => Returned x
       | None => Raised IndexError
       end.

(** [x in l] *)
Definition py_in (x : Z) (l : list Z) : bool := existsb (Z.eqb x) l.

(** [min(l)]; the empty sequence raises [ValueError]. *)
Definition py_min (l : list Z) : result Z :=
  match l with
  | [] => Raised ValueError
  | x :: t => Returned (fold_left Z.min t x)
  end.

(** [sum(l)] *)
Definition py_sum (l : list Z) : Z := fold_left Z.add l 0.

(** [set(l)] on integers, kept as a list without duplicates: the program
    only takes its [len]. *)
Definition py_set (l : list Z) : list Z := nodup Z.eq_dec l.

Definition len {A : Type} (l : list A) : Z := Z.of_nat (List.length l).

(** [sep.join(l)] *)
Fixpoint join (sep : string) (l : list string) : string :=
  match l with
  | [] => EmptyString
  | [s] => s
  | s :: t => s ++ sep ++ join sep t
  end.

Definition digit_char (d : Z) : ascii := ascii_of_nat (48 + Z.to_nat d).

(** Decimal digits of a positive number, most significant first. *)
Fixpoint digits_fuel (fuel : nat) (z : Z) (acc : string) : string :=
  match fuel with
  | O => acc
  | S fuel =>
      let acc := String (digit_char (z mod 10)) acc in
      if z <? 10 then acc else digits_fuel fuel (z / 10) acc
  end.

(** [str(z)] for an integer.  (CPython refuses, with [ValueError], an
    integer of more than 4300 digits; the program writes 1..10 only, and
    that limit is not modelled.) *)
Definition str (z : Z) : string :=
  if z <? 0 then String "-" (digits_fuel (S (Z.to_nat (Z.log2 (- z)))) (- z) EmptyString)
  else digits_fuel (S (Z.to_nat (Z.log2 z))) z EmptyString.

Definition digit_val (c : ascii) : option Z :=
  let k := Z.of_nat (nat_of_ascii c) in
  if (48 <=? k) && (k <=? 57) then Some (k - 48) else None.

Fixpoint parse_digits (s : string) (acc : Z) : option Z :=
  match s with
  | EmptyString => Some acc
  | String c t =>
      match digit_val c with
      | Some d => parse_digits t (10 * acc + d)
      | None => None
      end
  end.

(** [int(s)] for a string: an optional sign followed by at least one decimal
    digit; anything else raises [ValueError].  (Surrounding blanks and
    underscores between digits, which [int] also accepts, never occur in a
    string built from [str] of integers and are not modelled; nor is the
    [ValueError] CPython raises on more than 4300 digits, the program
    reading 17 digits at most.) *)
Definition py_int (s : string) : result Z :=
  let unsigned (t : string) (sign : Z) :=
    match t with
    | EmptyString => Raised ValueError
    | _ => match parse_digits t 0 with
           | Some v => Returned (sign * v)
           | None => Raised ValueError
           end
    end in
  match s with
  | String "-" t => unsigned t (-1)
  | String "+" t => unsigned t 1
  | _ => unsigned s 1
  end.

(** ** [itertools.permutations]

    The library documents that the tuples come in lexicographic order of the
    positions of the input: the first element runs over the input from left
    to right, and the remaining elements keep their relative order. *)

Fixpoint selections {A : Type} (l : list A) : list (A * list A) :=
  match l with
  | [] => []
  | x :: t => (x, t) :: map (fun yr => (fst yr, x :: snd yr)) (selections t)
  end.

Fixpoint perms_of_length {A : Type} (k : nat) (l : list A) : list (list A) :=
  match k with
  | O => [[]]
  | S k =>
      flat_map (fun xr => map (cons (fst xr)) (perms_of_length k (snd xr)))
               (selections l)
  end.

Definition permutations {A : Type} (l : list A) : list (list A) :=
  perms_of_length (List.length l) l.

(** ** [list.sort(reverse=True)] on strings

    Strings compare lexicographically by code point.  The sort is stable;
    an insertion sort that puts an element after the ones not smaller than it
    keeps the order of equal elements. *)

Fixpoint insert_desc (s : string) (l : list string) : list string :=
  match l with
  | [] => [s]
  | h :: t => if String.ltb h s then s :: h :: t else h :: insert_desc s t
  end.

Definition sort_reverse (l : list string) : list string :=
  fold_left (fun acc s => insert_desc s acc) l [].

(** ** The program *)

Definition ring := list Z.
Definition line := list Z.

(** [entries = list(range(1, 2*n+1))] *)
Definition entries (n : Z) : list Z := range 1 (2 * n + 1).

(** [constraints = [(i, n+i, n + (i+1) % n) for i in range(n)]] *)
Definition constraints (n : Z) : list (Z * Z * Z) :=
  map (fun i => (i, n + i, n + (i + 1) mod n)) (range 0 n).

Definition tuple_items (c : Z * Z * Z) : list Z :=
  let '(a, b, d) := c in [a; b; d].

(** [list(map(lambda c: list(map(lambda i: ring[i], c)), constraints))] *)
Definition ring_lines (cs : list (Z * Z * Z)) (r : ring) : result (list line) :=
  mapM (fun c => mapM (getitem r) (tuple_items c)) cs.

(** [''.join([str(x) for line in lines for x in line])] *)
Definition concat_str (lines : list line) : string :=
  join EmptyString (flat_map (fun l => map str l) lines).

(** ['; '.join(map(lambda line: ','.join(map(str, line)), lines))] *)
Definition sol_str_of (lines : list line) : string :=
  join "; " (map (fun l => join "," (map str l)) lines).

Definition loop_state : Type := list string * Z.

(** One iteration of the [for ring in permutations(entries)] loop; a
    [continue] returns the state unchanged. *)
Definition loop_body (n : Z) (cs : list (Z * Z * Z))
    (st : loop_state) (r : ring) : result loop_state :=
  let '(sol_strs, sol_concat_max) := st in
  if (n =? 5) && negb (py_in 10 (slice_to r n)) then Returned st else
  m <- py_min (slice_to r n) ;;
  r0 <- getitem r 0 ;;
  if negb (m =? r0) then Returned st else
  lines <- ring_lines cs r ;;
  let sums := py_set (map py_sum lines) in
  if len sums >? 1 then Returned st else
  sol_concat <- py_int (concat_str lines) ;;
  let sol_concat_max := Z.max sol_concat_max sol_concat in
  let sol_str := sol_str_of lines in
  Returned (sol_strs ++ [sol_str], sol_concat_max).

Definition for_loop (n : Z) (cs : list (Z * Z * Z)) (rings : list ring)
    (st : result loop_state) : result loop_state :=
  fold_left (fun acc r => s <- acc ;; loop_body n cs s r) rings st.

Definition main (n : pyval) : result (list string * Z) :=
  if pytype_eqb (type_of n) TInt then
    match n with
    | PyInt n =>
        if (3 <=? n) && (n <=? 5) then
          '(sol_strs, sol_concat_max) <-
            for_loop n (constraints n) (permutations (entries n))
                     (Returned ([], 0)) ;;
          Returned (sort_reverse sol_strs, sol_concat_max)
        else Raised AssertionError
    | _ => Raised AssertionError
    end
  else Raised AssertionError.

(** ** Definitions used to reason about the loop *)

(** What one iteration decides about a candidate: [None] for a [continue],
    otherwise the lines of the ring and their concatenation. *)
Definition examine (n : Z) (cs : list (Z * Z * Z)) (r : ring)
    : result (option (list line * Z)) :=
  if (n =? 5) && negb (py_in 10 (slice_to r n)) then Returned None else
  m <- py_min (slice_to r n) ;;
  r0 <- getitem r 0 ;;
  if negb (m =? r0) then Returned None else
  lines <- ring_lines cs r ;;
  if len (py_set (map py_sum lines)) >? 1 then Returned None else
  sol_concat <- py_int (concat_str lines) ;;
  Returned (Some (lines, sol_concat)).

Record solution : Type := Solution {
  sol_ring : ring;
  sol_lines : list line;
  sol_concat : Z
}.

Definition collect_step (n : Z) (cs : list (Z * Z * Z))
    (acc : result (list solution)) (r : ring) : result (list solution) :=
  sols <- acc ;;
  o <- examine n cs r ;;
  Returned (match o with
            | None => sols
            | Some (lines, c) => sols ++ [Solution r lines c]
            end).

(** The candidates that reach the end of the loop body, in loop order. *)
Definition collect (n : Z) (cs : list (Z * Z * Z)) (rings : list ring)
    : result (list solution) :=
  fold_left (collect_step n cs) rings (Returned []).

Definition solutions (n : Z) : result (list solution) :=
  collect n (constraints n) (permutations (entries n)).

(** The description string of a solution. *)
Definition describe (s : solution) : string := sol_str_of (sol_lines s).

(** A fold over the permutations that never builds the list of them:
    [pre] is the reversed prefix chosen so far. *)
Fixpoint fold_perms {A S : Type} (k : nat) (f : S -> list A -> S)
    (pre l : list A) (acc : S) : S :=
  match k with
  | O => f acc (rev pre)
  | S k =>
      fold_left (fun a xr => fold_perms k f (fst xr :: pre) (snd xr) a)
                (selections l) acc
  end.

(** The magic total of a solution: the sum of its first line. *)
Definition magic_total (s : solution) : Z :=
  match sol_lines s with
  | [] => 0
  | l :: _ => py_sum l
  end.

Definition externals (n : Z) (r : ring) : list Z := slice_to r n.

(** Line [i] of a ring, by positions [i], [n+i], [n + (i+1) mod n]. *)
Definition line_sum (n : Z) (r : ring) (i : Z) : Z :=
  nth (Z.to_nat i) r 0 + nth (Z.to_nat (n + i)) r 0
  + nth (Z.to_nat (n + (i + 1) mod n)) r 0.

Definition valid_n (n : Z) : Prop := n = 3 \/ n = 4 \/ n = 5.

Definition string_ge (a b : string) : Prop := String.leb b a = true.

(** The same fold, leaving out the orderings that extend a prefix [skip]
    rejects. *)
Fixpoint fold_perms_pruned {A S : Type} (k : nat) (f : S -> list A -> S)
    (skip : list A -> bool) (pre l : list A) (acc : S) : S :=
  match k with
  | O => f acc (rev pre)
  | S k =>
      fold_left
        (fun a xr =>
           if skip (fst xr :: pre) then a
           else fold_perms_pruned k f skip (fst xr :: pre) (snd xr) a)
        (selections l) acc
  end.

(** A reversed prefix no ring can extend into a kept candidate: the [n]
    external nodes fail one of the first two tests of the loop body, or a
    line already filled has another sum than line 0. *)
Definition hopeless (n : Z) (pre : list Z) : bool :=
  let r := rev pre in
  let k := len pre in
  if k =? n then
    ((n =? 5) && negb (py_in 10 r))
    || match py_min r, getitem r 0 with
       | Returned m, Returned r0 => negb (m =? r0)
       | _, _ => false
       end
  else if n + 2 <? k then
    negb (line_sum n r (k - n - 2) =? line_sum n r 0)
  else false.

Definition solutions_pruned (n : Z) : result (list solution) :=
  let l := entries n in
  fold_perms_pruned (List.length l) (collect_step n (constraints n))
                    (hopeless n) [] l (Returned []).

(** ** The solutions the program finds

    The candidates kept by the loop, in the order the loop meets them, for
    each accepted [n]. *)

Definition found_3 : list solution :=
  [ Solution [1; 2; 3; 5; 6; 4]
      [[1; 5; 6]; [2; 6; 4]; [3; 4; 5]]
      156264345;
    Solution [1; 3; 2; 6; 5; 4]
      [[1; 6; 5]; [3; 5; 4]; [2; 4; 6]]
      165354246;
    Solution [1; 3; 5; 4; 6; 2]
      [[1; 4; 6]; [3; 6; 2]; [5; 2; 4]]
      146362524;
    Solution [1; 5; 3; 6; 4; 2]
      [[1; 6; 4]; [5; 4; 2]; [3; 2; 6]]
      164542326;
    Solution [2; 4; 6; 3; 5; 1]
      [[2; 3; 5]; [4; 5; 1]; [6; 1; 3]]
      235451613;
    Solution [2; 6; 4; 5; 3; 1]
      [[2; 5; 3]; [6; 3; 1]; [4; 1; 5]]
      253631415;
    Solution [4; 5; 6; 2; 3; 1]
      [[4; 2; 3]; [5; 3; 1]; [6; 1; 2]]
      423531612;
    Solution [4; 6; 5; 3; 2; 1]
      [[4; 3; 2]; [6; 2; 1]; [5; 1; 3]]
      432621513 ].

Definition found_4 : list solution :=
  [ Solution [1; 2; 5; 4; 8; 6; 7; 3]
      [[1; 8; 6]; [2; 6; 7]; [5; 7; 3]; [4; 3; 8]]
      186267573438;
    Solution [1; 2; 7; 6; 5; 8; 4; 3]
      [[1; 5; 8]; [2; 8; 4]; [7; 4; 3]; [6; 3; 5]]
      158284743635;
    Solution [1; 4; 5; 2; 6; 8; 3; 7]
      [[1; 6; 8]; [4; 8; 3]; [5; 3; 7]; [2; 7; 6]]
      168483537276;
    Solution [1; 6; 7; 2; 8; 5; 3; 4]
      [[1; 8; 5]; [6; 5; 3]; [7; 3; 4]; [2; 4; 8]]
      185653734248;
    Solution [2; 3; 6; 5; 8; 4; 7; 1]
      [[2; 8; 4]; [3; 4; 7]; [6; 7; 1]; [5; 1; 8]]
      284347671518;
    Solution [2; 3; 8; 7; 5; 6; 4; 1]
      [[2; 5; 6]; [3; 6; 4]; [8; 4; 1]; [7; 1; 5]]
      256364841715;
    Solution [2; 5; 6; 3; 4; 8; 1; 7]
      [[2; 4; 8]; [5; 8; 1]; [6; 1; 7]; [3; 7; 4]]
      248581617374;
    Solution [2; 7; 8; 3; 6; 5; 1; 4]
      [[2; 6; 5]; [7; 5; 1]; [8; 1; 4]; [3; 4; 6]]
      265751814346;
    Solution [3; 4; 7; 6; 2; 8; 1; 5]
      [[3; 2; 8]; [4; 8; 1]; [7; 1; 5]; [6; 5; 2]]
      328481715652;
    Solution [3; 6; 7; 4; 8; 2; 5; 1]
      [[3; 8; 2]; [6; 2; 5]; [7; 5; 1]; [4; 1; 8]]
      382625751418;
    Solution [4; 5; 8; 7; 2; 6; 1; 3]
      [[4; 2; 6]; [5; 6; 1]; [8; 1; 3]; [7; 3; 2]]
      426561813732;
    Solution [4; 7; 8; 5; 6; 2; 3; 1]
      [[4; 6; 2]; [7; 2; 3]; [8; 3; 1]; [5; 1; 6]]
      462723831516 ].

Definition found_5 : list solution :=
  [ Solution [2; 4; 6; 8; 10; 5; 9; 3; 7; 1]
      [[2; 5; 9]; [4; 9; 3]; [6; 3; 7]; [8; 7; 1]; [10; 1; 5]]
      2594936378711015;
    Solution [2; 10; 8; 6; 4; 9; 5; 1; 7; 3]
      [[2; 9; 5]; [10; 5; 1]; [8; 1; 7]; [6; 7; 3]; [4; 3; 9]]
      2951051817673439;
    Solution [6; 7; 8; 9; 10; 3; 5; 2; 4; 1]
      [[6; 3; 5]; [7; 5; 2]; [8; 2; 4]; [9; 4; 1]; [10; 1; 3]]
      6357528249411013;
    Solution [6; 10; 9; 8; 7; 5; 3; 1; 4; 2]
      [[6; 5; 3]; [10; 3; 1]; [9; 1; 4]; [8; 4; 2]; [7; 2; 5]]
      6531031914842725 ].

Definition found (n : Z) : list solution :=
  if n =? 3 then found_3 else if n =? 4 then found_4 else found_5.

(** The arguments the docstring accepts: an [int] in the range [3, 5]. *)
Definition valid_arg (v : pyval) : bool :=
  match v with
  | PyInt z => (3 <=? z) && (z <=? 5)
  | _ => false
  end.

(** No string occurs twice. *)
Fixpoint distinct (l : list string) : bool :=
  match l with
  | [] => true
  | s :: t => negb (existsb (String.eqb s) t) && distinct t
  end.

(** A description in the output format: [k] groups of three integers. *)
Definition formatted (k : nat) (d : string) : Prop :=
  exists groups : list (list Z),
    List.length groups = k /\
    (forall g, In g groups -> List.length g = 3%nat) /\
    d = join "; " (map (fun g => join "," (map str g)) groups).

(** ** The specification's own notions

    What the specification says of the output, written without the
    program's functions: the decimal reading of the concatenated lines, the
    text of a description, and what the interpreter leaves open. *)

(** The values of the [n] lines in order, line [i] being the ring positions
    [i], [n+i] and [n + (i+1) mod n]. *)
Definition line_values (n : Z) (r : ring) : list Z :=
  flat_map (fun i => [nth (Z.to_nat i) r 0; nth (Z.to_nat (n + i)) r 0;
                      nth (Z.to_nat (n + (i + 1) mod n)) r 0])
           (range 0 n).

(** The least power of ten above [x], from ten on: what writing the decimal
    digits of [x] after a number multiplies that number by. *)
Fixpoint decimal_shift_from (fuel : nat) (x p : Z) : Z :=
  match fuel with
  | O => p
  | S fuel => if x <? p then p else decimal_shift_from fuel x (10 * p)
  end.

Definition decimal_shift (x : Z) : Z := decimal_shift_from (Z.to_nat x) x 10.

(** The number whose decimal digits are those of the values, one value
    after the other. *)
Definition decimal_concatenation (xs : list Z) : Z :=
  fold_left (fun a x => a * decimal_shift x + x) xs 0.

(** The place of a character in a string, counted from [k]. *)
Fixpoint position_in (c : ascii) (s : string) (k : Z) : option Z :=
  match s with
  | EmptyString => None
  | String d t => if Ascii.eqb c d then Some k else position_in c t (k + 1)
  end.

(** The value of a decimal digit: its place among the ten digits. *)
Definition decimal_digit (c : ascii) : option Z :=
  position_in c "0123456789" 0.

Fixpoint decimal_value (s : string) (acc : Z) : option Z :=
  match s with
  | EmptyString => Some acc
  | String c t =>
      match decimal_digit c with
      | Some d => decimal_value t (10 * acc + d)
      | None => None
      end
  end.

(** [s] is the decimal numeral of the natural number [z]: digits only, at
    least one, and no leading zero. *)
Definition numeral_of (z : Z) (s : string) : Prop :=
  s <> EmptyString /\
  decimal_value s 0 = Some z /\
  (s = "0"%string \/ forall t, s <> String "0" t).

(** The text of one group: three numerals with a comma between them. *)
Definition group_text (g : Z * Z * Z) (s : string) : Prop :=
  let '(a, b, c) := g in
  exists sa sb sc,
    numeral_of a sa /\ numeral_of b sb /\ numeral_of c sc /\
    s = (sa ++ "," ++ sb ++ "," ++ sc)%string.

(** The text of a description: the groups, with a semicolon and a blank
    between two groups. *)
Inductive groups_text : list (Z * Z * Z) -> string -> Prop :=
| groups_last g s : group_text g s -> groups_text [g] s
| groups_more g gs s t :
    group_text g s -> groups_text gs t ->
    groups_text (g :: gs) (s ++ "; " ++ t).

(** CPython's default limit on the digits of an [int] converted from or to
    a string ([sys.int_info.default_max_str_digits]); beyond it [int] and
    [str] raise [ValueError]. *)
Definition int_max_str_digits : Z := 4300.

(** What the interpreter leaves open when the program builds [set(...)]:
    the elements are kept once each, in an order that depends on hashing
    and on the history of the set. *)
Record environment : Type := Environment {
  set_of : list Z -> list Z;
  set_of_NoDup : forall l, NoDup (set_of l);
  set_of_In : forall l x, In x (set_of l) <-> In x l
}.

(** The loop body, the loop and [main] run in an environment. *)
Definition loop_body_in (env : environment) (n : Z) (cs : list (Z * Z * Z))
    (st : loop_state) (r : ring) : result loop_state :=
  let '(sol_strs, sol_concat_max) := st in
  if (n =? 5) && negb (py_in 10 (slice_to r n)) then Returned st else
  m <- py_min (slice_to r n) ;;
  r0 <- getitem r 0 ;;
  if negb (m =? r0) then Returned st else
  lines <- ring_lines cs r ;;
  let sums := set_of env (map py_sum lines) in
  if len sums >? 1 then Returned st else
  sol_concat <- py_int (concat_str lines) ;;
  let sol_concat_max := Z.max sol_concat_max sol_concat in
  let sol_str := sol_str_of lines in
  Returned (sol_strs ++ [sol_str], sol_concat_max).

Definition for_loop_in (env : environment) (n : Z) (cs : list (Z * Z * Z))
    (rings : list ring) (st : result loop_state) : result loop_state :=
  fold_left (fun acc r => s <- acc ;; loop_body_in env n cs s r) rings st.

Definition main_in (env : environment) (n : pyval) : result (list string * Z) :=
  if pytype_eqb (type_of n) TInt then
    match n with
    | PyInt n =>
        if (3 <=? n) && (n <=? 5) then
          '(sol_strs, sol_concat_max) <-
            for_loop_in env n (constraints n) (permutations (entries n))
                        (Returned ([], 0)) ;;
          Returned (sort_reverse sol_strs, sol_concat_max)
        else Raised AssertionError
    | _ => Raised AssertionError
    end
  else Raised AssertionError.

(** Two environments: the set in order of first occurrence, and the same
    set in the opposite order. *)
Definition first_seen : environment :=
  Environment (nodup Z.eq_dec)
              (fun l => NoDup_nodup Z.eq_dec l)
              (fun l x => nodup_In Z.eq_dec l x).

Definition last_seen : environment :=
  Environment (fun l => rev (nodup Z.eq_dec l))
              (fun l => NoDup_rev (NoDup_nodup Z.eq_dec l))
              (fun l x => iff_trans (iff_sym (in_rev (nodup Z.eq_dec l) x))
                                    (nodup_In Z.eq_dec l x)).

(** ** Proof automation *)

(** Case analysis on an accepted [n]. *)
Ltac valid_cases H := destruct H as [-> | [-> | ->]].

(** Case analysis on a member of one of the lists of found solutions. *)
Ltac each_found H tac :=
  cbv [found found_3 found_4 found_5 Z.eqb Pos.eqb] in H;
  cbn [In] in H;
  repeat (let E := fresh "E" in
          destruct H as [E | H]; [inversion E; subst; clear E; tac|]);
  contradiction.

(** ** Definitions for the further properties *)

(** The value [int] reads from the concatenated decimal strings. *)
Definition concat_value (xs : list Z) : Z :=
  fold_left (fun a x => a * 10 ^ Z.of_nat (String.length (str x)) + x) xs 0.

(** Turning the ring by one step: the external nodes and the internal nodes
    each move one place towards the front, the first going last. *)
Definition rotate_left {A : Type} (l : list A) : list A :=
  match l with
  | [] => []
  | x :: t => t ++ [x]
  end.

Definition rotate_ring (n : Z) (r : ring) : ring :=
  rotate_left (slice_to r n) ++ rotate_left (skipn (Z.to_nat n) r).

(** A list with all its elements named, from a hypothesis on its length. *)
Ltac ring_of_length H :=
  repeat match goal with
         | r : ring |- _ => destruct r; simpl in H; try discriminate H
         | r : list Z |- _ => destruct r; simpl in H; try discriminate H
         end.

(** Computes the rotations of a ring whose elements are named. *)
Ltac turn_ring :=
  match goal with
  | |- context [Nat.iter ?k (rotate_ring ?n) ?r] =>
      let r' := eval cbv [Nat.iter nat_rect rotate_ring slice_to rotate_left
                          firstn skipn app Z.leb Z.compare Z.to_nat
                          Pos.to_nat Pos.iter_op Nat.add]
                in (Nat.iter k (rotate_ring n) r) in
      change (Nat.iter k (rotate_ring n) r) with r'
  end.

(** The same ring read in the other direction, from the same first
    external node. *)
Definition reflect_ring (n : Z) (r : ring) : ring :=
  let inner := skipn (Z.to_nat n) r in
  match slice_to r n with
  | [] => []
  | a :: t => a :: rev t
  end ++ rev (firstn 2 inner) ++ rev (skipn 2 inner).

(** Computes the mirror image of a ring whose elements are named. *)
Ltac mirror_ring :=
  match goal with
  | |- context [reflect_ring ?n ?r] =>
      let r' := eval cbv [reflect_ring slice_to rev firstn skipn app Z.leb
                          Z.compare Z.to_nat Pos.to_nat Pos.iter_op Nat.add]
                in (reflect_ring n r) in
      change (reflect_ring n r) with r'
  end.

(** Names the total of line 0 and the sum of the internal nodes. *)
Ltac name_totals ES ET :=
  match goal with
  | |- context [line_sum ?n ?r 0] =>
      let S := fresh "S" in remember (line_sum n r 0) as S eqn:ES
  end;
  match goal with
  | |- context [py_sum ?l] =>
      let T := fresh "T" in remember (py_sum l) as T eqn:ET
  end;
  unfold line_sum in ES; simpl in ES; simpl in ET.

(** ** The error monad and the folds of the loop *)

Section FoldLemmas.
Context {A S : Type}.

Lemma fold_left_raised (f : S -> A -> result S) (l : list A) (e : exn) :
  fold_left (fun acc r => s <- acc ;; f s r) l (Raised e) = Raised e.
Proof. induction l as [|a l IH]; simpl; auto. Qed.

Lemma fold_perms_flat (f : S -> list A -> S) (k : nat) :
  forall (pre l : list A) (acc : S),
    fold_perms k f pre l acc
    = fold_left f (map (app (rev pre)) (perms_of_length k l)) acc.
Proof.
  induction k as [|k IH]; intros pre l acc; simpl.
  - now rewrite app_nil_r.
  - generalize (selections l) acc.
    intros sels; induction sels as [|[x r] sels IHs]; intros a; simpl; auto.
    rewrite map_app, fold_left_app, <- IHs, IH, map_map.
    do 2 f_equal. apply map_ext. intros p. simpl.
    now rewrite <- app_assoc.
Qed.

Lemma fold_perms_permutations (f : S -> list A -> S) (l : list A) (acc : S) :
  fold_perms (List.length l) f [] l acc = fold_left f (permutations l) acc.
Proof.
  rewrite fold_perms_flat. unfold permutations. simpl.
  now rewrite map_id.
Qed.
End FoldLemmas.

Lemma collect_step_raised n cs (l : list ring) (e : exn) :
  fold_left (collect_step n cs) l (Raised e) = Raised e.
Proof. induction l as [|a l IH]; simpl; auto. Qed.

(** The loop body does what [examine] decides. *)
Lemma loop_body_examine n cs strs mx r :
  loop_body n cs (strs, mx) r
  = o <- examine n cs r ;;
    Returned (match o with
              | None => (strs, mx)
              | Some (lines, c) => (strs ++ [sol_str_of lines], Z.max mx c)
              end).
Proof.
  unfold loop_body, examine.
  destruct ((n =? 5) && negb (py_in 10 (slice_to r n))); [reflexivity|].
  destruct (py_min (slice_to r n)) as [m|e]; [simpl|reflexivity].
  destruct (getitem r 0) as [r0|e]; [simpl|reflexivity].
  destruct (negb (m =? r0)); [reflexivity|].
  destruct (ring_lines cs r) as [lines|e]; [simpl|reflexivity].
  destruct (len (py_set (map py_sum lines)) >? 1); [reflexivity|].
  destruct (py_int (concat_str lines)) as [c|e]; reflexivity.
Qed.

Lemma for_loop_collect n cs rings :
  forall sols0 sols strs0 mx0,
    fold_left (collect_step n cs) rings (Returned sols0) = Returned sols ->
    for_loop n cs rings
      (Returned (strs0 ++ map describe sols0,
                 fold_left Z.max (map sol_concat sols0) mx0))
    = Returned (strs0 ++ map describe sols,
                fold_left Z.max (map sol_concat sols) mx0).
Proof.
  unfold for_loop.
  induction rings as [|r rings IH]; intros sols0 sols strs0 mx0 H;
    cbn [fold_left bind] in *.
  - now inversion H.
  - rewrite loop_body_examine. unfold collect_step in H at 2.
    cbn [bind] in H.
    destruct (examine n cs r) as [o|e]; cbn [bind] in *.
    + destruct o as [[lines c]|]; [|now apply IH].
      specialize (IH _ _ strs0 mx0 H).
      rewrite !map_app, fold_left_app, app_assoc in IH. exact IH.
    + now rewrite collect_step_raised in H.
Qed.

Lemma collect_sound n cs rings :
  forall sols0 sols,
    fold_left (collect_step n cs) rings (Returned sols0) = Returned sols ->
    forall s, In s sols ->
      In s sols0 \/
      (In (sol_ring s) rings /\
       examine n cs (sol_ring s) = Returned (Some (sol_lines s, sol_concat s))).
Proof.
  induction rings as [|r rings IH]; intros sols0 sols H s Hs; simpl in *.
  - inversion H; subst; auto.
  - destruct (examine n cs r) as [o|e] eqn:E; simpl in *.
    + destruct (IH _ _ H s Hs) as [Hin|[Hin Hex]]; [|now auto].
      destruct o as [[lines c]|]; [|now auto].
      apply in_app_or in Hin. destruct Hin as [Hin|[<-|[]]]; auto.
    + now rewrite collect_step_raised in H.
Qed.

Lemma collect_complete n cs rings :
  forall sols0 sols,
    fold_left (collect_step n cs) rings (Returned sols0) = Returned sols ->
    (forall s, In s sols0 -> In s sols) /\
    (forall r lines c, In r rings ->
       examine n cs r = Returned (Some (lines, c)) ->
       In (Solution r lines c) sols).
Proof.
  induction rings as [|r rings IH]; intros sols0 sols H; simpl in *.
  - inversion H; subst. split; [auto|intros ? ? ? []].
  - destruct (examine n cs r) as [o|e] eqn:E; simpl in *.
    + destruct (IH _ _ H) as [IH1 IH2]. split.
      * intros s Hs. apply IH1. destruct o as [[lines c]|]; auto.
        apply in_or_app; auto.
      * intros r' lines c [<-|Hin] Hex; [|now eauto].
        rewrite E in Hex. inversion Hex; subst.
        apply IH1, in_or_app. right. now left.
    + now rewrite collect_step_raised in H.
Qed.

Lemma for_loop_all_skipped n cs rings st :
  (forall r, In r rings -> examine n cs r = Returned None) ->
  for_loop n cs rings (Returned st) = Returned st.
Proof.
  unfold for_loop. destruct st as [strs mx].
  induction rings as [|r rings IH]; intros H; cbn [fold_left bind]; auto.
  rewrite loop_body_examine, (H r (or_introl eq_refl)). cbn [bind].
  apply IH. intros r' Hr'. apply H. now right.
Qed.

(** ** The built-ins *)

Lemma py_in_In x l : py_in x l = true <-> In x l.
Proof.
  unfold py_in. rewrite existsb_exists. split.
  - intros [y [Hy E]]. apply Z.eqb_eq in E. now subst.
  - intros H. exists x. split; [assumption|apply Z.eqb_refl].
Qed.

Lemma fold_min_spec l : forall x,
  (fold_left Z.min l x <= x /\ forall y, In y l -> fold_left Z.min l x <= y)
  /\ (fold_left Z.min l x = x \/ In (fold_left Z.min l x) l).
Proof.
  induction l as [|a l IH]; intros x; simpl.
  - split; [split|]; [lia|intros y []|now left].
  - destruct (IH (Z.min x a)) as [[H1 H2] H3]. split; [split|].
    + lia.
    + intros y [<-|Hy]; [lia|auto].
    + destruct H3 as [H3|H3]; [|now auto].
      rewrite H3. destruct (Z.min_spec x a) as [[_ ->]|[_ ->]]; auto.
Qed.

Lemma py_min_spec l m :
  py_min l = Returned m -> In m l /\ forall x, In x l -> m <= x.
Proof.
  destruct l as [|a l]; simpl; [discriminate|].
  intros H. inversion H; subst. clear H.
  destruct (fold_min_spec l a) as [[H1 H2] H3]. split.
  - destruct H3 as [->|H3]; auto.
  - intros x [<-|Hx]; auto.
Qed.

Lemma getitem_nth r i x :
  0 <= i -> getitem r i = Returned x ->
  nth_error r (Z.to_nat i) = Some x /\ nth (Z.to_nat i) r 0 = x.
Proof.
  unfold getitem. intros Hi.
  destruct (i <? 0) eqn:E; [apply Z.ltb_lt in E; lia|].
  destruct ((i <? 0) || (Z.of_nat (List.length r) <=? i)); [discriminate|].
  destruct (nth_error r (Z.to_nat i)) as [y|] eqn:N; [|discriminate].
  intros H. inversion H; subst. split; [reflexivity|].
  now apply nth_error_nth.
Qed.

Lemma mapM_length {A B : Type} (f : A -> result B) l : forall out,
  mapM f l = Returned out -> List.length out = List.length l.
Proof.
  induction l as [|a l IH]; simpl; intros out H.
  - now inversion H.
  - destruct (f a) as [b|e]; simpl in H; [|discriminate].
    destruct (mapM f l) as [bs|e]; simpl in H; [|discriminate].
    inversion H; subst. simpl. now rewrite (IH bs).
Qed.

Lemma mapM_Forall2 {A B : Type} (f : A -> result B) l : forall out,
  mapM f l = Returned out -> Forall2 (fun a b => f a = Returned b) l out.
Proof.
  induction l as [|a l IH]; simpl; intros out H.
  - inversion H. constructor.
  - destruct (f a) as [b|e] eqn:E; simpl in H; [|discriminate].
    destruct (mapM f l) as [bs|e']; simpl in H; [|discriminate].
    inversion H; subst. constructor; auto.
Qed.

(** A set with at most one element: all the values are the same. *)
Lemma py_set_single l :
  (len (py_set l) >? 1) = false -> forall a b, In a l -> In b l -> a = b.
Proof.
  unfold len, py_set. intros H a b Ha Hb.
  assert (Hl : (List.length (nodup Z.eq_dec l) <= 1)%nat).
  { destruct (Z.of_nat (List.length (nodup Z.eq_dec l)) >? 1) eqn:E;
      [discriminate|].
    rewrite Z.gtb_ltb in E. apply Z.ltb_ge in E. lia. }
  apply (nodup_In Z.eq_dec) in Ha, Hb.
  destruct (nodup Z.eq_dec l) as [|x [|y t]]; simpl in *.
  - contradiction.
  - destruct Ha as [<-|[]], Hb as [<-|[]]. reflexivity.
  - lia.
Qed.

(** The set is only consumed through [len], which does not depend on the
    order in which a set implementation stores its elements. *)
Lemma len_set_representation l s :
  NoDup s -> (forall x, In x s <-> In x l) -> len s = len (py_set l).
Proof.
  intros Hs Hin. unfold len, py_set. f_equal.
  apply Nat.le_antisymm; apply NoDup_incl_length.
  - assumption.
  - intros x Hx. apply nodup_In. now apply Hin.
  - apply NoDup_nodup.
  - intros x Hx. apply nodup_In in Hx. now apply Hin.
Qed.

Lemma range_In a b i : In i (range a b) <-> a <= i < b.
Proof.
  unfold range. rewrite in_map_iff. split.
  - intros [k [<- Hk]]. apply in_seq in Hk. lia.
  - intros H. exists (Z.to_nat (i - a)). split; [lia|].
    apply in_seq. lia.
Qed.

Lemma range_length a b : List.length (range a b) = Z.to_nat (b - a).
Proof. unfold range. now rewrite length_map, length_seq. Qed.

(** ** What a kept candidate satisfies *)

Lemma examine_inv n cs r lines c :
  examine n cs r = Returned (Some (lines, c)) ->
  (n = 5 -> In 10 (slice_to r n)) /\
  (exists m, py_min (slice_to r n) = Returned m /\ getitem r 0 = Returned m) /\
  ring_lines cs r = Returned lines /\
  (len (py_set (map py_sum lines)) >? 1) = false /\
  py_int (concat_str lines) = Returned c.
Proof.
  unfold examine.
  destruct ((n =? 5) && negb (py_in 10 (slice_to r n))) eqn:E5; [discriminate|].
  destruct (py_min (slice_to r n)) as [m|e]; [simpl|discriminate].
  destruct (getitem r 0) as [r0|e]; [simpl|discriminate].
  destruct (negb (m =? r0)) eqn:Em; [discriminate|].
  destruct (ring_lines cs r) as [ls|e]; [simpl|discriminate].
  destruct (len (py_set (map py_sum ls)) >? 1) eqn:Es; [discriminate|].
  destruct (py_int (concat_str ls)) as [c'|e] eqn:Ec; [simpl|discriminate].
  intros H. inversion H; subst. clear H.
  apply negb_false_iff, Z.eqb_eq in Em. subst r0.
  repeat split; eauto.
  intros ->. simpl in E5. apply negb_false_iff in E5. now apply py_in_In.
Qed.

(** The lines of a ring are read at positions [i], [n+i], [n + (i+1) mod n]. *)
Lemma ring_lines_positions n r : forall l lines,
  0 < n -> (forall i, In i l -> 0 <= i) ->
  ring_lines (map (fun i => (i, n + i, n + (i + 1) mod n)) l) r
    = Returned lines ->
  lines = map (fun i => [nth (Z.to_nat i) r 0; nth (Z.to_nat (n + i)) r 0;
                          nth (Z.to_nat (n + (i + 1) mod n)) r 0]) l.
Proof.
  unfold ring_lines.
  induction l as [|i l IH]; intros lines Hn Hl H; simpl in H.
  - now inversion H.
  - assert (Hi : 0 <= i) by (apply Hl; now left).
    assert (Hm : 0 <= (i + 1) mod n) by (apply Z.mod_pos_bound; lia).
    destruct (getitem r i) as [a|e] eqn:Ea; [simpl in H|discriminate].
    destruct (getitem r (n + i)) as [b|e] eqn:Eb; [simpl in H|discriminate].
    destruct (getitem r (n + (i + 1) mod n)) as [d|e] eqn:Ed;
      [simpl in H|discriminate].
    match type of H with
    | context [mapM ?f ?k] => destruct (mapM f k) as [rest|e] eqn:Er
    end; [simpl in H|discriminate].
    inversion H; subst. simpl.
    apply getitem_nth in Ea, Eb, Ed; try lia.
    destruct Ea as [_ ->], Eb as [_ ->], Ed as [_ ->].
    f_equal. apply IH; auto. intros j Hj. apply Hl. now right.
Qed.

Lemma kept_lines n r lines :
  0 < n -> ring_lines (constraints n) r = Returned lines ->
  lines = map (fun i => [nth (Z.to_nat i) r 0; nth (Z.to_nat (n + i)) r 0;
                          nth (Z.to_nat (n + (i + 1) mod n)) r 0]) (range 0 n).
Proof.
  intros Hn H. apply ring_lines_positions; auto.
  intros i Hi. apply range_In in Hi. lia.
Qed.

Lemma kept_line_sums n r lines :
  0 < n -> ring_lines (constraints n) r = Returned lines ->
  (len (py_set (map py_sum lines)) >? 1) = false ->
  forall i j, 0 <= i < n -> 0 <= j < n -> line_sum n r i = line_sum n r j.
Proof.
  intros Hn Hl Hs i j Hi Hj.
  apply kept_lines in Hl; auto. subst lines.
  rewrite map_map in Hs.
  apply (py_set_single _ Hs); apply in_map_iff.
  - exists i. split; [reflexivity|now apply range_In].
  - exists j. split; [reflexivity|now apply range_In].
Qed.

(** ** Sorting in descending string order *)

Lemma compare_as_OT a : forall b, String.compare a b = String_as_OT.compare a b.
Proof.
  intros b. reflexivity.
Qed.

Lemma string_lt_trans a b c :
  String.compare a b = Lt -> String.compare b c = Lt -> String.compare a c = Lt.
Proof.
  rewrite !compare_as_OT.
  destruct String_as_OT.lt_strorder as [_ T]. exact (T a b c).
Qed.

Lemma string_ge_cases a b :
  string_ge a b <-> a = b \/ String.compare b a = Lt.
Proof.
  unfold string_ge, String.leb. split.
  - destruct (String.compare b a) eqn:E; try discriminate; auto.
    left. symmetry. now apply String.compare_eq_iff.
  - intros [->|H].
    + pose proof (String.compare_antisym b b) as A.
      destruct (String.compare b b); auto; discriminate.
    + now rewrite H.
Qed.

Lemma string_ge_trans a b c : string_ge a b -> string_ge b c -> string_ge a c.
Proof.
  rewrite !string_ge_cases. intros [->|H1] [->|H2]; auto.
  right. eapply string_lt_trans; eauto.
Qed.

Lemma ltb_string_ge h s : String.ltb h s = true -> string_ge s h.
Proof.
  unfold String.ltb. intros H. apply string_ge_cases. right.
  destruct (String.compare h s); auto; discriminate.
Qed.

Lemma not_ltb_string_ge h s : String.ltb h s = false -> string_ge h s.
Proof.
  unfold String.ltb, string_ge, String.leb. intros H.
  rewrite String.compare_antisym.
  destruct (String.compare h s); auto; discriminate.
Qed.

Lemma insert_desc_perm s l : Permutation (insert_desc s l) (s :: l).
Proof.
  induction l as [|h t IH]; simpl; auto.
  destruct (String.ltb h s); auto.
  rewrite IH. apply perm_swap.
Qed.

Lemma insert_desc_sorted s l :
  StronglySorted string_ge l -> StronglySorted string_ge (insert_desc s l).
Proof.
  induction l as [|h t IH]; intros H; simpl.
  - repeat constructor.
  - inversion H as [|? ? Ht Hh]; subst.
    destruct (String.ltb h s) eqn:E.
    + apply ltb_string_ge in E. constructor; auto.
      constructor; auto.
      eapply Forall_impl; [|exact Hh].
      intros x Hx. eapply string_ge_trans; eauto.
    + apply not_ltb_string_ge in E. constructor; auto.
      eapply Permutation_Forall.
      * symmetry. apply insert_desc_perm.
      * constructor; auto.
Qed.

Lemma sort_reverse_acc l : forall acc,
  StronglySorted string_ge acc ->
  StronglySorted string_ge (fold_left (fun a s => insert_desc s a) l acc)
  /\ Permutation (fold_left (fun a s => insert_desc s a) l acc) (acc ++ l).
Proof.
  induction l as [|s l IH]; intros acc H; simpl.
  - rewrite app_nil_r. auto.
  - destruct (IH (insert_desc s acc) (insert_desc_sorted s acc H)) as [H1 H2].
    split; auto.
    rewrite H2, insert_desc_perm. simpl.
    apply Permutation_middle.
Qed.

Lemma sort_reverse_sorted l : StronglySorted string_ge (sort_reverse l).
Proof. apply sort_reverse_acc. constructor. Qed.

Lemma sort_reverse_perm l : Permutation (sort_reverse l) l.
Proof. apply (sort_reverse_acc l []). constructor. Qed.

Lemma sort_reverse_In l s : In s (sort_reverse l) <-> In s l.
Proof.
  split; apply Permutation_in;
    [apply sort_reverse_perm|symmetry; apply sort_reverse_perm].
Qed.

Lemma distinct_NoDup l : distinct l = true -> NoDup l.
Proof.
  induction l as [|s t IH]; simpl; intros H; constructor.
  - apply andb_prop in H. destruct H as [H _].
    apply negb_true_iff in H. intros Hin.
    assert (E : existsb (String.eqb s) t = true).
    { apply existsb_exists. exists s. split; auto. apply String.eqb_refl. }
    congruence.
  - apply IH. apply andb_prop in H. tauto.
Qed.

(** ** The model of [permutations] yields orderings of its input *)

Lemma selections_perm {A : Type} (l : list A) : forall x r,
  In (x, r) (selections l) -> Permutation (x :: r) l.
Proof.
  induction l as [|a l IH]; simpl; intros x r H; [contradiction|].
  destruct H as [E|H].
  - inversion E; subst. reflexivity.
  - apply in_map_iff in H. destruct H as [[y r'] [E H]].
    simpl in E. inversion E; subst.
    apply IH in H. rewrite perm_swap. now constructor.
Qed.

Lemma perms_of_length_perm {A : Type} (k : nat) : forall (l p : list A),
  List.length l = k -> In p (perms_of_length k l) -> Permutation p l.
Proof.
  induction k as [|k IH]; intros l p Hl H; simpl in H.
  - destruct l; [|discriminate]. destruct H as [<-|[]]. constructor.
  - apply in_flat_map in H. destruct H as [[x r] [Hs H]].
    apply in_map_iff in H. destruct H as [q [<- Hq]]. simpl in *.
    pose proof (selections_perm _ _ _ Hs) as P.
    rewrite <- P. constructor. apply IH; auto.
    apply Permutation_length in P. simpl in P. lia.
Qed.

Lemma permutations_perm {A : Type} (l p : list A) :
  In p (permutations l) -> Permutation p l.
Proof. now apply perms_of_length_perm. Qed.

Example permutations_order :
  permutations [1; 2; 3]
  = [[1; 2; 3]; [1; 3; 2]; [2; 1; 3]; [2; 3; 1]; [3; 1; 2]; [3; 2; 1]].
Proof. reflexivity. Qed.

Example str_examples :
  map str [0; 7; 10; 123; -45] = ["0"; "7"; "10"; "123"; "-45"]%string.
Proof. reflexivity. Qed.

Example py_int_examples :
  py_int "432621513" = Returned 432621513 /\
  py_int "" = Raised ValueError /\
  py_int "4,3" = Raised ValueError.
Proof. repeat split. Qed.

Example constraints_3 : constraints 3 = [(0, 3, 4); (1, 4, 5); (2, 5, 3)].
Proof. reflexivity. Qed.

Example sort_reverse_example :
  sort_reverse ["2,3"; "10,1"; "9,1"; "1,4"]%string
  = ["9,1"; "2,3"; "10,1"; "1,4"]%string.
Proof. reflexivity. Qed.

(** ** Pruning the enumeration *)

Lemma fold_left_fixed {A S : Type} (f : S -> A -> S) (l : list A) (a : S) :
  (forall x, In x l -> f a x = a) -> fold_left f l a = a.
Proof.
  induction l as [|x l IH]; simpl; intros H; auto.
  rewrite (H x (or_introl eq_refl)). apply IH. intros y Hy. apply H. now right.
Qed.

Lemma fold_left_agree {A S : Type} (f g : S -> A -> S) (l : list A) :
  (forall a x, In x l -> f a x = g a x) ->
  forall a, fold_left f l a = fold_left g l a.
Proof.
  induction l as [|x l IH]; simpl; intros H a; auto.
  rewrite (H a x (or_introl eq_refl)). apply IH. intros b y Hy. apply H. now right.
Qed.

Section Pruning.
Context {A S : Type}.
Variable f : S -> list A -> S.
Variable skip : list A -> bool.
Variable total : nat.
Hypothesis skip_sound : forall pre p a,
  (List.length pre + List.length p = total)%nat ->
  skip pre = true -> f a (rev pre ++ p) = a.

Lemma fold_perms_pruned_eq (k : nat) : forall pre l acc,
  List.length l = k -> (List.length pre + k = total)%nat ->
  fold_perms_pruned k f skip pre l acc = fold_perms k f pre l acc.
Proof.
  induction k as [|k IH]; intros pre l acc Hl Ht; simpl; auto.
  apply fold_left_agree. intros a [x r] Hx. simpl.
  assert (Hr : List.length r = k).
  { apply selections_perm, Permutation_length in Hx. simpl in Hx. lia. }
  destruct (skip (x :: pre)) eqn:E.
  - rewrite fold_perms_flat. symmetry. apply fold_left_fixed.
    intros q Hq. apply in_map_iff in Hq. destruct Hq as [p [<- Hp]].
    apply skip_sound; auto.
    apply perms_of_length_perm, Permutation_length in Hp; auto.
    simpl. lia.
  - apply IH; auto. simpl. lia.
Qed.
End Pruning.

Lemma getitem_total l i :
  0 <= i < len l -> exists x, getitem l i = Returned x.
Proof.
  unfold getitem, len. intros H.
  destruct (i <? 0) eqn:E; [apply Z.ltb_lt in E; lia|].
  replace (Z.of_nat (List.length l) <=? i) with false
    by (symmetry; apply Z.leb_gt; lia).
  rewrite E. simpl.
  destruct (nth_error l (Z.to_nat i)) as [x|] eqn:N; [now exists x|].
  apply nth_error_None in N. lia.
Qed.

Lemma mapM_total {A B : Type} (f : A -> result B) l :
  (forall a, In a l -> exists b, f a = Returned b) ->
  exists bs, mapM f l = Returned bs.
Proof.
  induction l as [|a l IH]; simpl; intros H; eauto.
  destruct (H a (or_introl eq_refl)) as [b ->].
  destruct IH as [bs ->]; [intros x Hx; apply H; now right|].
  simpl. eauto.
Qed.

Lemma ring_lines_total n (r : ring) :
  0 < n -> len r = 2 * n ->
  exists lines, ring_lines (constraints n) r = Returned lines.
Proof.
  intros Hn Hr. unfold ring_lines. apply mapM_total.
  intros c Hc. unfold constraints in Hc. apply in_map_iff in Hc.
  destruct Hc as [i [<- Hi]]. apply range_In in Hi.
  assert (Hm : 0 <= (i + 1) mod n < n) by (apply Z.mod_pos_bound; lia).
  apply mapM_total. simpl.
  intros j [<-|[<-|[<-|[]]]]; apply getitem_total; lia.
Qed.

Lemma py_set_two l a b :
  In a l -> In b l -> a <> b -> (len (py_set l) >? 1) = true.
Proof.
  intros Ha Hb Hab. unfold len, py_set.
  assert (H : (List.length [a; b] <= List.length (nodup Z.eq_dec l))%nat).
  { apply NoDup_incl_length.
    - constructor; [intros [E|[]]; congruence|constructor; [intros []|constructor]].
    - intros x [<-|[<-|[]]]; now apply nodup_In. }
  simpl in H. rewrite Z.gtb_ltb. apply Z.ltb_lt. lia.
Qed.

Lemma line_sum_prefix n (r p : list Z) i :
  0 < n -> 0 <= i -> i + 1 < n -> n + i + 1 < len r ->
  line_sum n (r ++ p) i = line_sum n r i.
Proof.
  unfold line_sum, len. intros Hn Hi Hi1 Hr.
  rewrite (Z.mod_small (i + 1) n) by lia.
  rewrite !app_nth1 by lia. reflexivity.
Qed.

Lemma slice_to_prefix (r p : list Z) n :
  len r = n -> slice_to (r ++ p) n = r.
Proof.
  unfold len, slice_to. intros <-.
  replace (0 <=? Z.of_nat (List.length r)) with true
    by (symmetry; apply Z.leb_le; lia).
  rewrite Nat2Z.id, firstn_app, Nat.sub_diag, firstn_all. simpl.
  apply app_nil_r.
Qed.

(** No ring of [2n] values that extends a hopeless prefix is kept. *)
Lemma hopeless_sound n pre p :
  0 < n -> len (rev pre ++ p) = 2 * n -> hopeless n pre = true ->
  examine n (constraints n) (rev pre ++ p) = Returned None.
Proof.
  intros Hn Hlen Hh. unfold hopeless in Hh.
  assert (Hk : len pre = len (rev pre)) by (unfold len; now rewrite length_rev).
  rewrite Hk in Hh. set (r := rev pre) in *. clearbody r. clear Hk pre.
  assert (Hrp : len (r ++ p) = len r + len p)
    by (unfold len; rewrite length_app; lia).
  assert (Hp0 : 0 <= len p) by (unfold len; lia).
  unfold examine.
  destruct (len r =? n) eqn:Ek.
  - apply Z.eqb_eq in Ek. rewrite (slice_to_prefix r p n Ek).
    destruct ((n =? 5) && negb (py_in 10 r)); [reflexivity|].
    simpl in Hh. destruct r as [|x t]; [discriminate|].
    cbn [py_min bind] in *.
    assert (G : forall q, getitem ((x :: t) ++ q) 0 = Returned x).
    { intros q. unfold getitem. simpl.
      destruct (Z.pos (Pos.of_succ_nat (List.length (t ++ q))) <=? 0) eqn:E;
        [apply Z.leb_le in E; lia|reflexivity]. }
    rewrite (G p). pose proof (G []) as G0. rewrite app_nil_r in G0.
    rewrite G0 in Hh. cbn [bind]. now rewrite Hh.
  - destruct (n + 2 <? len r) eqn:Eb; [|discriminate].
    apply Z.ltb_lt in Eb. apply negb_true_iff, Z.eqb_neq in Hh.
    destruct ((n =? 5) && negb (py_in 10 (slice_to (r ++ p) n)));
      [reflexivity|].
    destruct (py_min (slice_to (r ++ p) n)) as [m|e] eqn:Em.
    2:{ exfalso. unfold slice_to in Em.
        replace (0 <=? n) with true in Em by (symmetry; apply Z.leb_le; lia).
        destruct r as [|x t]; [unfold len in Eb; simpl in Eb; lia|].
        destruct (Z.to_nat n) eqn:En; [lia|]. simpl in Em. discriminate. }
    cbn [bind].
    destruct (getitem_total (r ++ p) 0 ltac:(lia)) as [r0 ->]. cbn [bind].
    destruct (negb (m =? r0)); [reflexivity|].
    destruct (ring_lines_total n (r ++ p) Hn Hlen) as [lines Hl].
    rewrite Hl. cbn [bind].
    apply kept_lines in Hl; auto. subst lines. rewrite map_map.
    rewrite (py_set_two _ (line_sum n (r ++ p) (len r - n - 2))
                          (line_sum n (r ++ p) 0)); auto.
    + apply in_map_iff. exists (len r - n - 2).
      split; [reflexivity|apply range_In; lia].
    + apply in_map_iff. exists 0. split; [reflexivity|apply range_In; lia].
    + rewrite !line_sum_prefix by lia. exact Hh.
Qed.

Lemma entries_length n : 0 < n -> List.length (entries n) = Z.to_nat (2 * n).
Proof. intros Hn. unfold entries. rewrite range_length. f_equal. lia. Qed.

Lemma solutions_pruned_eq n : 0 < n -> solutions n = solutions_pruned n.
Proof.
  intros Hn. unfold solutions, solutions_pruned, collect.
  etransitivity; [symmetry; apply fold_perms_permutations|]. symmetry.
  apply fold_perms_pruned_eq with (total := List.length (entries n)); auto.
  intros pre p a Hlen Hh. destruct a as [sols|e]; [|reflexivity].
  unfold collect_step. cbn [bind].
  rewrite hopeless_sound; auto.
  unfold len. rewrite length_app, length_rev, Hlen, entries_length; lia.
Qed.

(** ** The runs of the program on the accepted arguments *)

Lemma solutions_3 : solutions 3 = Returned found_3.
Proof.
  rewrite solutions_pruned_eq by lia.
  vm_cast_no_check (eq_refl (Returned found_3)).
Qed.

Lemma solutions_4 : solutions 4 = Returned found_4.
Proof.
  rewrite solutions_pruned_eq by lia.
  vm_cast_no_check (eq_refl (Returned found_4)).
Qed.

Lemma solutions_5 : solutions 5 = Returned found_5.
Proof.
  rewrite solutions_pruned_eq by lia.
  vm_cast_no_check (eq_refl (Returned found_5)).
Qed.

Lemma solutions_found n : valid_n n -> solutions n = Returned (found n).
Proof.
  intros [-> | [-> | ->]];
    [apply solutions_3|apply solutions_4|apply solutions_5].
Qed.

Lemma valid_n_range n : valid_n n <-> 3 <= n <= 5.
Proof. unfold valid_n. lia. Qed.

Lemma main_of_solutions n sols :
  valid_n n -> solutions n = Returned sols ->
  main (PyInt n)
  = Returned (sort_reverse (map describe sols),
              fold_left Z.max (map sol_concat sols) 0).
Proof.
  intros Hn Hs. apply valid_n_range in Hn. unfold main. cbn [type_of pytype_eqb].
  replace ((3 <=? n) && (n <=? 5)) with true
    by (symmetry; apply andb_true_intro; split; apply Z.leb_le; lia).
  pose proof (for_loop_collect n (constraints n) (permutations (entries n))
                [] sols [] 0 Hs) as H.
  cbn [map app fold_left] in H. rewrite H. reflexivity.
Qed.

Lemma main_valid n :
  valid_n n ->
  main (PyInt n)
  = Returned (sort_reverse (map describe (found n)),
              fold_left Z.max (map sol_concat (found n)) 0).
Proof. intros Hn. apply main_of_solutions; auto using solutions_found. Qed.

Lemma found_sound n s :
  valid_n n -> In s (found n) ->
  In (sol_ring s) (permutations (entries n)) /\
  examine n (constraints n) (sol_ring s)
    = Returned (Some (sol_lines s, sol_concat s)).
Proof.
  intros Hn Hs.
  destruct (collect_sound _ _ _ _ _ (solutions_found n Hn) s Hs) as [[]|H].
  exact H.
Qed.

Lemma found_complete n r lines c :
  valid_n n -> In r (permutations (entries n)) ->
  examine n (constraints n) r = Returned (Some (lines, c)) ->
  In (Solution r lines c) (found n).
Proof.
  intros Hn Hr He.
  exact (proj2 (collect_complete _ _ _ _ _ (solutions_found n Hn)) r lines c Hr He).
Qed.

(** Every returned description is the description of a kept candidate. *)
Lemma main_descriptions n :
  valid_n n ->
  exists strs mx,
    main (PyInt n) = Returned (strs, mx) /\
    forall d, In d strs <-> exists s, In s (found n) /\ d = describe s.
Proof.
  intros Hn. eexists _, _. split; [apply main_valid; auto|].
  intros d. rewrite sort_reverse_In, in_map_iff. split.
  - intros [s [<- Hs]]. eauto.
  - intros [s [Hs ->]]. eauto.
Qed.

(** ** The properties of the specification *)

(** C1: for every accepted [n], [main] returns, and every description it
    returns is the description of a candidate ring, an ordering of 1..2n met
    by the loop, whose [n] lines, line [i] being the values at positions [i],
    [n+i] and [n + (i+1) mod n], all have the same sum. *)
Theorem C1_line_sums_equal (n : Z) :
  valid_n n ->
  exists strs mx,
    main (PyInt n) = Returned (strs, mx) /\
    forall d, In d strs ->
      exists r lines,
        In r (permutations (entries n)) /\
        Permutation r (entries n) /\
        ring_lines (constraints n) r = Returned lines /\
        lines = map (fun i => [nth (Z.to_nat i) r 0;
                               nth (Z.to_nat (n + i)) r 0;
                               nth (Z.to_nat (n + (i + 1) mod n)) r 0])
                    (range 0 n) /\
        d = sol_str_of lines /\
        forall i j, 0 <= i < n -> 0 <= j < n ->
          line_sum n r i = line_sum n r j.
Proof.
  intros Hn. destruct (main_descriptions n Hn) as [strs [mx [Hm Hd]]].
  exists strs, mx. split; [exact Hm|].
  intros d Hin. apply Hd in Hin. destruct Hin as [s [Hs ->]].
  destruct (found_sound n s Hn Hs) as [Hr He].
  apply examine_inv in He. destruct He as [_ [_ [Hl [Hsum _]]]].
  assert (Hpos : 0 < n) by (apply valid_n_range in Hn; lia).
  exists (sol_ring s), (sol_lines s). repeat split; auto.
  - now apply permutations_perm.
  - now apply kept_lines.
  - now apply kept_line_sums with (lines := sol_lines s).
Qed.

Lemma C1_line_sums_equal_witness :
  valid_n 4 /\
  exists strs mx,
    main (PyInt 4) = Returned (strs, mx) /\
    forall d, In d strs ->
      exists r lines,
        In r (permutations (entries 4)) /\
        Permutation r (entries 4) /\
        ring_lines (constraints 4) r = Returned lines /\
        lines = map (fun i => [nth (Z.to_nat i) r 0;
                               nth (Z.to_nat (4 + i)) r 0;
                               nth (Z.to_nat (4 + (i + 1) mod 4)) r 0])
                    (range 0 4) /\
        d = sol_str_of lines /\
        forall i j, 0 <= i < 4 -> 0 <= j < 4 ->
          line_sum 4 r i = line_sum 4 r j.
Proof.
  assert (H : valid_n 4) by (right; left; reflexivity).
  split; [exact H|exact (C1_line_sums_equal 4 H)].
Defined.

(** C4: for every accepted [n], every returned description comes from a
    ring in canonical form: the value at position 0, which is also the first
    number of the description, is the least of the first [n] positions. *)
Theorem C4_canonical_form (n : Z) :
  valid_n n ->
  exists strs mx,
    main (PyInt n) = Returned (strs, mx) /\
    forall d, In d strs ->
      exists r lines first_line other_lines,
        In r (permutations (entries n)) /\
        ring_lines (constraints n) r = Returned lines /\
        d = sol_str_of lines /\
        lines = (nth 0 r 0 :: first_line) :: other_lines /\
        externals n r = firstn (Z.to_nat n) r /\
        In (nth 0 r 0) (externals n r) /\
        forall x, In x (externals n r) -> nth 0 r 0 <= x.
Proof.
  intros Hn. destruct (main_descriptions n Hn) as [strs [mx [Hm Hd]]].
  exists strs, mx. split; [exact Hm|].
  intros d Hin. apply Hd in Hin. destruct Hin as [s [Hs ->]].
  destruct (found_sound n s Hn Hs) as [Hr He].
  apply examine_inv in He. destruct He as [_ [[m [Hmin H0]] [Hl _]]].
  assert (Hpos : 0 < n) by (apply valid_n_range in Hn; lia).
  apply getitem_nth in H0; [|lia]. destruct H0 as [_ H0]. simpl in H0.
  apply py_min_spec in Hmin. destruct Hmin as [Hin Hle].
  pose proof (kept_lines n _ _ Hpos Hl) as Hk.
  assert (Hrange : exists rest, range 0 n = 0 :: rest).
  { valid_cases Hn; eexists; reflexivity. }
  destruct Hrange as [rest Hrange]. rewrite Hrange in Hk. simpl in Hk.
  assert (Hext : externals n (sol_ring s) = firstn (Z.to_nat n) (sol_ring s)).
  { unfold externals, slice_to. destruct (0 <=? n) eqn:E; auto.
    apply Z.leb_gt in E. lia. }
  exists (sol_ring s), (sol_lines s). eexists _, _.
  subst m. unfold externals in *. repeat split; eauto.
Qed.

Lemma C4_canonical_form_witness :
  valid_n 3 /\
  exists strs mx,
    main (PyInt 3) = Returned (strs, mx) /\
    forall d, In d strs ->
      exists r lines first_line other_lines,
        In r (permutations (entries 3)) /\
        ring_lines (constraints 3) r = Returned lines /\
        d = sol_str_of lines /\
        lines = (nth 0 r 0 :: first_line) :: other_lines /\
        externals 3 r = firstn (Z.to_nat 3) r /\
        In (nth 0 r 0) (externals 3 r) /\
        forall x, In x (externals 3 r) -> nth 0 r 0 <= x.
Proof.
  assert (H : valid_n 3) by (left; reflexivity).
  split; [exact H|exact (C4_canonical_form 3 H)].
Defined.

(** C2: [main(3)] returns exactly the eight descriptions of the problem
    statement and the maximum 432621513; the kept rings have the magic
    totals 9, 10, 11 and 12, two rings for each total. *)
Theorem C2_three_gon :
  exists strs mx,
    main (PyInt 3) = Returned (strs, mx) /\
    solutions 3 = Returned found_3 /\
    strs = sort_reverse (map describe found_3) /\
    strs = [ "4,3,2; 6,2,1; 5,1,3"; "4,2,3; 5,3,1; 6,1,2";
             "2,5,3; 6,3,1; 4,1,5"; "2,3,5; 4,5,1; 6,1,3";
             "1,6,5; 3,5,4; 2,4,6"; "1,6,4; 5,4,2; 3,2,6";
             "1,5,6; 2,6,4; 3,4,5"; "1,4,6; 3,6,2; 5,2,4" ]%string /\
    List.length strs = 8%nat /\
    mx = 432621513 /\
    Forall (fun s => Forall (fun l => py_sum l = magic_total s) (sol_lines s)
                     /\ In (magic_total s) [9; 10; 11; 12]) found_3 /\
    map (count_occ Z.eq_dec (map magic_total found_3)) [9; 10; 11; 12]
      = [2; 2; 2; 2]%nat.
Proof.
  eexists _, _. split; [apply (main_valid 3); left; reflexivity|].
  split; [apply solutions_3|].
  split; [reflexivity|].
  split; [vm_compute; reflexivity|].
  split; [vm_compute; reflexivity|].
  split; [vm_compute; reflexivity|].
  split; [|vm_compute; reflexivity].
  unfold found_3.
  repeat (apply Forall_cons; [split; [repeat constructor|vm_compute; tauto]|]).
  apply Forall_nil.
Qed.

(** C3: every description returned by [main(5)] comes from a ring with 10
    among its five external nodes, and the concatenation computed for every
    kept ring is a string of 16 digits, read as a number of 16 digits. *)
Theorem C3_five_gon :
  exists strs mx,
    main (PyInt 5) = Returned (strs, mx) /\
    (forall d, In d strs ->
       exists r lines c,
         In r (permutations (entries 5)) /\
         examine 5 (constraints 5) r = Returned (Some (lines, c)) /\
         d = sol_str_of lines /\
         externals 5 r = firstn 5 r /\
         In 10 (externals 5 r)) /\
    (forall r lines c,
       In r (permutations (entries 5)) ->
       examine 5 (constraints 5) r = Returned (Some (lines, c)) ->
       String.length (concat_str lines) = 16%nat /\
       py_int (concat_str lines) = Returned c /\
       10 ^ 15 <= c < 10 ^ 16).
Proof.
  assert (H5 : valid_n 5) by (right; right; reflexivity).
  destruct (main_descriptions 5 H5) as [strs [mx [Hm Hd]]].
  exists strs, mx. split; [exact Hm|]. split.
  - intros d Hin. apply Hd in Hin. destruct Hin as [s [Hs ->]].
    destruct (found_sound 5 s H5 Hs) as [Hr He].
    exists (sol_ring s), (sol_lines s), (sol_concat s).
    repeat split; auto.
    apply examine_inv in He. destruct He as [H10 _]. now apply H10.
  - intros r lines c Hr He.
    pose proof (found_complete 5 r lines c H5 Hr He) as Hf.
    apply examine_inv in He. destruct He as [_ [_ [_ [_ Hc]]]].
    split; [|split; [exact Hc|]]; clear Hc Hr.
    + each_found Hf ltac:(reflexivity).
    + each_found Hf ltac:(split; vm_compute; congruence).
Qed.

Lemma fold_max_spec l : forall x,
  (x <= fold_left Z.max l x /\ forall y, In y l -> y <= fold_left Z.max l x)
  /\ (fold_left Z.max l x = x \/ In (fold_left Z.max l x) l).
Proof.
  induction l as [|a l IH]; intros x; simpl.
  - split; [split|]; [lia|intros y []|now left].
  - destruct (IH (Z.max x a)) as [[H1 H2] H3]. split; [split|].
    + lia.
    + intros y [<-|Hy]; [lia|auto].
    + destruct H3 as [H3|H3]; [|now auto].
      rewrite H3. destruct (Z.max_spec x a) as [[_ ->]|[_ ->]]; auto.
Qed.


Lemma ring_lines_shape cs r lines :
  ring_lines cs r = Returned lines ->
  List.length lines = List.length cs /\
  forall g, In g lines -> List.length g = 3%nat.
Proof.
  unfold ring_lines. intros H. split; [now apply mapM_length in H|].
  apply mapM_Forall2 in H. induction H as [|c g cs' lines' Hc _ IH].
  - intros g [].
  - intros g' [<-|Hg]; [|now apply IH].
    apply mapM_length in Hc. rewrite Hc. now destruct c as [[a b] d].
Qed.

(** C6: an argument that is not an [int], or an [int] outside [3, 5], makes
    [main] raise [AssertionError], the failed [assert] of its first line,
    with no result; an [int] in [3, 5] makes it return a result. *)
Theorem C6_precondition (v : pyval) :
  (valid_arg v = false -> main v = Raised AssertionError) /\
  (valid_arg v = true ->
   exists strs mx, main v = Returned (strs, mx)).
Proof.
  split.
  - destruct v; try reflexivity.
    unfold valid_arg, main. cbn [type_of pytype_eqb]. intros ->. reflexivity.
  - destruct v; try discriminate. unfold valid_arg. intros H.
    apply andb_prop in H. destruct H as [H3 H5].
    apply Z.leb_le in H3, H5.
    assert (Hn : valid_n z) by (apply valid_n_range; lia).
    eexists _, _. apply main_valid. exact Hn.
Qed.

Lemma C6_precondition_witness :
  main (PyInt 6) = Raised AssertionError /\
  main (PyFloat 3 0) = Raised AssertionError /\
  main (PyStr "4") = Raised AssertionError /\
  exists strs mx, main (PyInt 4) = Returned (strs, mx).
Proof.
  split; [exact (proj1 (C6_precondition (PyInt 6)) eq_refl)|].
  split; [exact (proj1 (C6_precondition (PyFloat 3 0)) eq_refl)|].
  split; [exact (proj1 (C6_precondition (PyStr "4")) eq_refl)|].
  exact (proj2 (C6_precondition (PyInt 4)) eq_refl).
Defined.

(** ** The text of a description *)

Lemma numeral_of_str x : 1 <= x <= 10 -> numeral_of x (str x).
Proof.
  intros H.
  assert (C : x = 1 \/ x = 2 \/ x = 3 \/ x = 4 \/ x = 5 \/ x = 6 \/ x = 7
              \/ x = 8 \/ x = 9 \/ x = 10) by lia.
  unfold numeral_of.
  repeat (destruct C as [-> | C];
          [split; [discriminate|split; [reflexivity|right; discriminate]]|]).
  subst. split; [discriminate|split; [reflexivity|right; discriminate]].
Qed.

Lemma group_text_of_line a b c :
  1 <= a <= 10 -> 1 <= b <= 10 -> 1 <= c <= 10 ->
  group_text (a, b, c) (join "," (map str (tuple_items (a, b, c)))).
Proof.
  intros Ha Hb Hc. exists (str a), (str b), (str c).
  repeat split; try (now apply numeral_of_str).
Qed.

Lemma groups_text_of_lines (gs : list (Z * Z * Z)) :
  gs <> [] ->
  (forall a b c, In (a, b, c) gs ->
                 1 <= a <= 10 /\ 1 <= b <= 10 /\ 1 <= c <= 10) ->
  groups_text gs (sol_str_of (map tuple_items gs)).
Proof.
  unfold sol_str_of.
  induction gs as [|[[a b] c] gs IH]; intros Hne H; [congruence|].
  assert (Hg : group_text (a, b, c) (join "," (map str (tuple_items (a, b, c))))).
  { destruct (H a b c (or_introl eq_refl)) as [Ha [Hb Hc]].
    now apply group_text_of_line. }
  destruct gs as [|g' gs'].
  - apply groups_last. exact Hg.
  - cbn [map join]. apply groups_more; [exact Hg|].
    apply IH; [discriminate|]. intros a' b' c' Hin. apply H. now right.
Qed.

Lemma ring_value_bounds n (r : ring) k :
  0 < n -> Permutation r (entries n) -> 0 <= k < 2 * n ->
  1 <= nth (Z.to_nat k) r 0 <= 2 * n.
Proof.
  intros Hn Hp Hk.
  assert (Hin : In (nth (Z.to_nat k) r 0) r).
  { apply nth_In. rewrite (Permutation_length Hp), entries_length by lia. lia. }
  apply (Permutation_in _ Hp), range_In in Hin. lia.
Qed.

(** C7: for every accepted [n], every returned string is the text of [n]
    groups of three integers, the lines of a candidate ring: in a group the
    three decimal numerals are joined by a comma, and two groups by a
    semicolon and a blank; and the list is in descending string order. *)
Theorem C7_format_and_order (n : Z) :
  valid_n n ->
  exists strs mx,
    main (PyInt n) = Returned (strs, mx) /\
    (forall d, In d strs ->
       formatted (Z.to_nat n) d /\
       exists r groups,
         In r (permutations (entries n)) /\
         groups = map (fun i => (nth (Z.to_nat i) r 0,
                                 nth (Z.to_nat (n + i)) r 0,
                                 nth (Z.to_nat (n + (i + 1) mod n)) r 0))
                      (range 0 n) /\
         List.length groups = Z.to_nat n /\
         groups_text groups d) /\
    StronglySorted string_ge strs.
Proof.
  intros Hn. eexists _, _. split; [apply main_valid; exact Hn|]. split.
  - intros d Hd. apply sort_reverse_In, in_map_iff in Hd.
    destruct Hd as [s [<- Hs]].
    assert (Hpos : 0 < n) by (apply valid_n_range in Hn; lia).
    destruct (found_sound n s Hn Hs) as [Hr He].
    apply examine_inv in He. destruct He as [_ [_ [Hl _]]].
    pose proof (kept_lines n _ _ Hpos Hl) as Hk.
    apply ring_lines_shape in Hl. destruct Hl as [Hlen H3].
    split.
    + exists (sol_lines s). split; [|split; [exact H3|reflexivity]].
      etransitivity; [exact Hlen|]. unfold constraints.
      rewrite length_map, range_length. f_equal. lia.
    + exists (sol_ring s). eexists. split; [exact Hr|].
      split; [reflexivity|]. split.
      * rewrite length_map, range_length. f_equal. lia.
      * unfold describe. rewrite Hk.
        rewrite <- (map_map (fun i => (nth (Z.to_nat i) (sol_ring s) 0,
                                       nth (Z.to_nat (n + i)) (sol_ring s) 0,
                                       nth (Z.to_nat (n + (i + 1) mod n))
                                           (sol_ring s) 0))
                            tuple_items).
        apply groups_text_of_lines.
        -- destruct (range 0 n) eqn:E; [|discriminate].
           pose proof (range_length 0 n) as L. rewrite E in L. simpl in L. lia.
        -- intros a b c Hin. apply in_map_iff in Hin.
           destruct Hin as [i [E Hi]]. inversion E; subst. clear E.
           apply range_In in Hi.
           assert (Hm : 0 <= (i + 1) mod n < n) by (apply Z.mod_pos_bound; lia).
           pose proof (permutations_perm _ _ Hr) as Hp.
           assert (H10 : 2 * n <= 10) by (apply valid_n_range in Hn; lia).
           pose proof (ring_value_bounds n (sol_ring s) i Hpos Hp ltac:(lia)).
           pose proof (ring_value_bounds n (sol_ring s) (n + i) Hpos Hp
                         ltac:(lia)).
           pose proof (ring_value_bounds n (sol_ring s) (n + (i + 1) mod n)
                         Hpos Hp ltac:(lia)).
           lia.
  - apply sort_reverse_sorted.
Qed.

Lemma C7_format_and_order_witness :
  valid_n 5 /\
  exists strs mx,
    main (PyInt 5) = Returned (strs, mx) /\
    (forall d, In d strs ->
       formatted (Z.to_nat 5) d /\
       exists r groups,
         In r (permutations (entries 5)) /\
         groups = map (fun i => (nth (Z.to_nat i) r 0,
                                 nth (Z.to_nat (5 + i)) r 0,
                                 nth (Z.to_nat (5 + (i + 1) mod 5)) r 0))
                      (range 0 5) /\
         List.length groups = Z.to_nat 5 /\
         groups_text groups d) /\
    StronglySorted string_ge strs.
Proof.
  assert (H : valid_n 5) by (right; right; reflexivity).
  split; [exact H|exact (C7_format_and_order 5 H)].
Defined.

(** C8: for every accepted [n], no string occurs twice in the returned
    list. *)
Theorem C8_no_duplicates (n : Z) :
  valid_n n ->
  exists strs mx,
    main (PyInt n) = Returned (strs, mx) /\ NoDup strs.
Proof.
  intros Hn. eexists _, _. split; [apply main_valid; exact Hn|].
  apply distinct_NoDup. valid_cases Hn; vm_compute; reflexivity.
Qed.

Lemma C8_no_duplicates_witness :
  valid_n 4 /\
  exists strs mx,
    main (PyInt 4) = Returned (strs, mx) /\ NoDup strs.
Proof.
  assert (H : valid_n 4) by (right; left; reflexivity).
  split; [exact H|exact (C8_no_duplicates 4 H)].
Defined.

Lemma loop_body_in_eq env n cs st r :
  loop_body_in env n cs st r = loop_body n cs st r.
Proof.
  unfold loop_body_in, loop_body. destruct st as [strs mx].
  destruct ((n =? 5) && negb (py_in 10 (slice_to r n))); [reflexivity|].
  destruct (py_min (slice_to r n)) as [m|e]; [cbn [bind]|reflexivity].
  destruct (getitem r 0) as [r0|e]; [cbn [bind]|reflexivity].
  destruct (negb (m =? r0)); [reflexivity|].
  destruct (ring_lines cs r) as [lines|e]; [cbn [bind]|reflexivity].
  rewrite (len_set_representation (map py_sum lines)
             (set_of env (map py_sum lines)));
    [reflexivity|apply set_of_NoDup|apply set_of_In].
Qed.

Lemma for_loop_in_eq env n cs rings : forall st,
  for_loop_in env n cs rings st = for_loop n cs rings st.
Proof.
  unfold for_loop_in, for_loop.
  induction rings as [|r rings IH]; intros st; [reflexivity|].
  cbn [fold_left]. rewrite IH. f_equal.
  destruct st as [s|e]; [cbn [bind]|reflexivity]. apply loop_body_in_eq.
Qed.

Lemma main_in_eq env v : main_in env v = main v.
Proof.
  unfold main_in, main. destruct v; try reflexivity.
  cbn [type_of pytype_eqb]. destruct ((3 <=? z) && (z <=? 5)); [|reflexivity].
  now rewrite for_loop_in_eq.
Qed.

(** C9: a run of [main] reads nothing but its argument, starts from a fresh
    list and a fresh maximum, and builds one object whose order the
    interpreter leaves open, the set of sums, of which it takes the size
    only.  So two runs on the same accepted [n], in any two environments,
    return a result, and the same one; a loop body that read the first
    element of the set would not pass. *)
Theorem C9_deterministic (env1 env2 : environment) (n : Z) :
  valid_n n ->
  main_in env1 (PyInt n) = main_in env2 (PyInt n) /\
  main_in env1 (PyInt n) = main (PyInt n) /\
  exists strs mx, main_in env1 (PyInt n) = Returned (strs, mx).
Proof.
  intros Hn. rewrite !main_in_eq. split; [reflexivity|].
  split; [reflexivity|].
  eexists _, _. apply main_valid. exact Hn.
Qed.

Lemma C9_deterministic_witness :
  set_of first_seen [9; 10; 9] = [10; 9] /\
  set_of last_seen [9; 10; 9] = [9; 10] /\
  main_in first_seen (PyInt 3) = main_in last_seen (PyInt 3) /\
  main_in first_seen (PyInt 3) = main (PyInt 3) /\
  exists strs mx, main_in first_seen (PyInt 3) = Returned (strs, mx).
Proof.
  split; [reflexivity|]. split; [reflexivity|].
  exact (C9_deterministic first_seen last_seen 3 (or_introl eq_refl)).
Defined.

(** C10: a boolean argument makes [main] raise [AssertionError]: although a
    [bool] is an instance of [int], its type is not [int], which is what the
    [assert] compares. *)
Theorem C10_booleans_rejected (b : bool) :
  isinstance_int (PyBool b) = true /\
  pytype_eqb (type_of (PyBool b)) TInt = false /\
  main (PyBool b) = Raised AssertionError.
Proof. repeat split. Qed.

(** * Further properties of the program *)

(** ** Every ordering is a candidate, once *)

Lemma selections_fst {A : Type} (l : list A) : map fst (selections l) = l.
Proof.
  induction l as [|a l IH]; simpl; auto.
  f_equal. rewrite map_map. etransitivity; [|exact IH].
  now apply map_ext.
Qed.

Lemma selections_In {A : Type} (l : list A) (x : A) :
  In x l -> exists r, In (x, r) (selections l).
Proof.
  intros H. rewrite <- (selections_fst l) in H.
  apply in_map_iff in H. destruct H as [[y r] [E H]].
  simpl in E. subst y. now exists r.
Qed.

Lemma perms_of_length_complete {A : Type} (k : nat) : forall (l p : list A),
  List.length l = k -> Permutation p l -> In p (perms_of_length k l).
Proof.
  induction k as [|k IH]; intros l p Hl Hp; simpl.
  - destruct l; [|discriminate]. apply Permutation_sym, Permutation_nil in Hp. now left.
  - destruct p as [|x q].
    { apply Permutation_length in Hp. simpl in Hp. lia. }
    assert (Hx : In x l) by (eapply Permutation_in; [exact Hp|now left]).
    destruct (selections_In l x Hx) as [r Hr].
    apply in_flat_map. exists (x, r). split; [exact Hr|]. simpl.
    apply in_map. pose proof (selections_perm _ _ _ Hr) as P.
    apply IH.
    + apply Permutation_length in P. simpl in P. lia.
    + apply Permutation_cons_inv with (a := x). now rewrite P.
Qed.

Lemma perms_of_length_count {A : Type} (k : nat) : forall l : list A,
  List.length l = k -> List.length (perms_of_length k l) = fact k.
Proof.
  induction k as [|k IH]; intros l Hl; simpl; auto.
  rewrite flat_map_constant_length with (c := fact k).
  - rewrite <- (length_map fst), selections_fst, Hl. reflexivity.
  - intros [x r] Hr. simpl. rewrite length_map. apply IH.
    apply selections_perm, Permutation_length in Hr. simpl in Hr. lia.
Qed.

Lemma heads_apart {A : Type} (k : nat) (sels : list (A * list A)) :
  NoDup (map fst sels) ->
  (forall xr, In xr sels -> NoDup (perms_of_length k (snd xr))) ->
  NoDup (flat_map (fun xr => map (cons (fst xr)) (perms_of_length k (snd xr)))
                  sels).
Proof.
  induction sels as [|[x r] sels IH]; simpl; intros Hf Hn; [constructor|].
  inversion Hf as [|? ? Hx Hf']; subst.
  apply NoDup_app.
  - apply Finite.Injective_map_NoDup; [|apply (Hn (x, r)); now left].
    intros a b E. now inversion E.
  - apply IH; auto.
  - intros p Hp Hq. apply in_map_iff in Hp. destruct Hp as [q [<- _]].
    apply in_flat_map in Hq. destruct Hq as [[y s] [Hy Hq]].
    apply in_map_iff in Hq. destruct Hq as [q' [E _]].
    simpl in E. inversion E; subst. apply Hx.
    apply in_map_iff. now exists (x, s).
Qed.

Lemma perms_of_length_NoDup {A : Type} (k : nat) : forall l : list A,
  List.length l = k -> NoDup l -> NoDup (perms_of_length k l).
Proof.
  induction k as [|k IH]; intros l Hl Hn; simpl.
  - constructor; [intros []|constructor].
  - apply heads_apart.
    + now rewrite selections_fst.
    + intros [x r] Hr. simpl. pose proof (selections_perm _ _ _ Hr) as P.
      apply IH.
      * apply Permutation_length in P. simpl in P. lia.
      * apply (Permutation_NoDup (Permutation_sym P)) in Hn.
        now inversion Hn.
Qed.

Lemma range_NoDup a b : NoDup (range a b).
Proof.
  unfold range. apply Finite.Injective_map_NoDup; [|apply seq_NoDup].
  intros x y. lia.
Qed.

(** X1: the loop meets every ordering of the entries 1..2n, each exactly
    once, and nothing else: [(2n)!] candidates in all. *)
Theorem X1_every_ordering_once (n : Z) (r : ring) :
  (In r (permutations (entries n)) <-> Permutation r (entries n)) /\
  NoDup (permutations (entries n)) /\
  List.length (permutations (entries n)) = fact (Z.to_nat (2 * n)).
Proof.
  unfold permutations. split; [split|split].
  - now apply perms_of_length_perm.
  - now apply perms_of_length_complete.
  - apply perms_of_length_NoDup; [reflexivity|apply range_NoDup].
  - rewrite perms_of_length_count by reflexivity.
    unfold entries. rewrite range_length. do 2 f_equal. lia.
Qed.

(** ** Decimal strings *)

Lemma digit_cases d :
  0 <= d < 10 ->
  d = 0 \/ d = 1 \/ d = 2 \/ d = 3 \/ d = 4 \/
  d = 5 \/ d = 6 \/ d = 7 \/ d = 8 \/ d = 9.
Proof. lia. Qed.

Lemma digit_val_char d : 0 <= d < 10 -> digit_val (digit_char d) = Some d.
Proof.
  intros H. apply digit_cases in H.
  repeat (destruct H as [-> | H]; [reflexivity|]). now subst.
Qed.

Lemma digit_char_no_sign d :
  0 <= d < 10 -> digit_char d <> "-"%char /\ digit_char d <> "+"%char.
Proof.
  intros H. apply digit_cases in H.
  repeat (destruct H as [-> | H]; [split; discriminate|]).
  subst. split; discriminate.
Qed.

Lemma append_nil_r (s : string) : (s ++ "")%string = s.
Proof. induction s as [|c s IH]; simpl; [reflexivity|now rewrite IH]. Qed.

Lemma append_assoc (a b c : string) :
  ((a ++ b) ++ c)%string = (a ++ (b ++ c))%string.
Proof. induction a as [|x a IH]; simpl; [reflexivity|now rewrite IH]. Qed.

Lemma length_append (a b : string) :
  String.length (a ++ b) = (String.length a + String.length b)%nat.
Proof. induction a as [|x a IH]; simpl; [reflexivity|now rewrite IH]. Qed.

Lemma digits_fuel_step f z acc :
  digits_fuel (S f) z acc
  = if z <? 10 then String (digit_char (z mod 10)) acc
    else digits_fuel f (z / 10) (String (digit_char (z mod 10)) acc).
Proof. reflexivity. Qed.

(** The digits written for [z] read back as [z], whatever follows them. *)
Lemma digits_fuel_spec (f : nat) : forall z acc,
  0 <= z < 2 ^ Z.of_nat (S f) ->
  exists d t,
    0 <= d < 10 /\
    digits_fuel (S f) z acc = (String (digit_char d) t ++ acc)%string /\
    forall s a,
      parse_digits (String (digit_char d) t ++ s) a
      = parse_digits s (a * 10 ^ Z.of_nat (S (String.length t)) + z).
Proof.
  induction f as [|f IH]; intros z acc Hz.
  - exists z, EmptyString.
    assert (Hz' : 0 <= z < 10) by (change (2 ^ Z.of_nat 1) with 2 in Hz; lia).
    split; [exact Hz'|]. split.
    + rewrite digits_fuel_step. cbn [digits_fuel append].
      rewrite (Z.mod_small z 10) by lia. now destruct (z <? 10).
    + intros s a. cbn [append parse_digits String.length].
      rewrite digit_val_char by lia. f_equal.
      change (10 ^ Z.of_nat 1) with 10. lia.
  - rewrite digits_fuel_step. destruct (z <? 10) eqn:E.
    + apply Z.ltb_lt in E. exists z, EmptyString.
      rewrite (Z.mod_small z 10) by lia.
      split; [lia|]. split; [reflexivity|].
      intros s a. cbn [append parse_digits String.length].
      rewrite digit_val_char by lia. f_equal.
      change (10 ^ Z.of_nat 1) with 10. lia.
    + apply Z.ltb_ge in E.
      assert (Hm : 0 <= z mod 10 < 10) by (apply Z.mod_pos_bound; lia).
      assert (Hq : 0 <= z / 10 < 2 ^ Z.of_nat (S f)).
      { split; [apply Z.div_pos; lia|].
        apply Z.div_lt_upper_bound; [lia|].
        rewrite (Nat2Z.inj_succ (S f)), Z.pow_succ_r in Hz by lia. lia. }
      destruct (IH (z / 10) (String (digit_char (z mod 10)) acc) Hq)
        as [d [t [Hd [Heq Hparse]]]].
      exists d, (t ++ String (digit_char (z mod 10)) EmptyString)%string.
      split; [exact Hd|]. split.
      * rewrite Heq. cbn [append]. f_equal. now rewrite append_assoc.
      * intros s a.
        replace (String (digit_char d)
                   (t ++ String (digit_char (z mod 10)) "") ++ s)%string
          with (String (digit_char d) t
                  ++ String (digit_char (z mod 10)) s)%string
          by (cbn [append]; f_equal; now rewrite append_assoc).
        rewrite Hparse. cbn [parse_digits]. rewrite digit_val_char by exact Hm.
        f_equal. rewrite length_append. cbn [String.length].
        rewrite (Nat.add_comm (String.length t) 1). cbn [Nat.add].
        rewrite (Nat2Z.inj_succ (S (String.length t))), Z.pow_succ_r by lia.
        pose proof (Z.div_mod z 10). lia.
Qed.

Lemma str_spec z :
  0 <= z ->
  exists d t,
    0 <= d < 10 /\ str z = String (digit_char d) t /\
    forall s a,
      parse_digits (str z ++ s) a
      = parse_digits s (a * 10 ^ Z.of_nat (String.length (str z)) + z).
Proof.
  intros Hz. unfold str.
  replace (z <? 0) with false by (symmetry; apply Z.ltb_ge; lia).
  assert (Hb : 0 <= z < 2 ^ Z.of_nat (S (Z.to_nat (Z.log2 z)))).
  { split; [exact Hz|].
    rewrite Nat2Z.inj_succ, Z2Nat.id by apply Z.log2_nonneg.
    destruct (Z.eq_dec z 0) as [->|Hne]; [reflexivity|].
    apply Z.log2_spec. lia. }
  destruct (digits_fuel_spec _ z EmptyString Hb) as [d [t [Hd [Heq Hp]]]].
  rewrite append_nil_r in Heq.
  exists d, t. split; [exact Hd|]. split; [exact Heq|].
  intros s a. rewrite Heq. apply Hp.
Qed.

Lemma join_empty_cons s l : join "" (s :: l) = (s ++ join "" l)%string.
Proof. destruct l; simpl; [now rewrite append_nil_r|reflexivity]. Qed.

Lemma parse_joined xs : forall a,
  (forall x, In x xs -> 0 <= x) ->
  parse_digits (join "" (map str xs)) a
  = Some (fold_left (fun a x => a * 10 ^ Z.of_nat (String.length (str x)) + x)
                    xs a).
Proof.
  induction xs as [|x xs IH]; intros a H; [reflexivity|].
  cbn [map]. rewrite join_empty_cons.
  destruct (str_spec x (H x (or_introl eq_refl))) as [_ [_ [_ [_ Hp]]]].
  rewrite Hp. cbn [fold_left]. apply IH. intros y Hy. apply H. now right.
Qed.

Lemma py_int_unsigned c t v :
  c <> "-"%char -> c <> "+"%char -> parse_digits (String c t) 0 = Some v ->
  py_int (String c t) = Returned v.
Proof.
  intros Hm Hp Hv. unfold py_int.
  destruct (Ascii.ascii_dec c "-") as [->|_]; [congruence|].
  destruct (Ascii.ascii_dec c "+") as [->|_]; [congruence|].
  assert (E : forall (X : Type) (a b d : X),
             match c with
             | "-"%char => a | "+"%char => b | _ => d
             end = d).
  { intros X a b d.
    destruct c as [[|] [|] [|] [|] [|] [|] [|] [|]]; try reflexivity;
      congruence. }
  rewrite E, Hv. f_equal. lia.
Qed.

Lemma py_int_joined xs :
  xs <> [] -> (forall x, In x xs -> 0 <= x) ->
  py_int (join "" (map str xs)) = Returned (concat_value xs).
Proof.
  intros Hne H. destruct xs as [|x xs]; [congruence|].
  pose proof (parse_joined (x :: xs) 0 H) as Hp.
  destruct (str_spec x (H x (or_introl eq_refl))) as [d [t [Hd [Hs _]]]].
  cbn [map] in *. rewrite join_empty_cons in *. rewrite Hs in *.
  cbn [append] in *.
  destruct (digit_char_no_sign d Hd) as [Hm Hpl].
  now apply py_int_unsigned.
Qed.

Lemma flat_map_str lines :
  flat_map (fun l : line => map str l) lines = map str (List.concat lines).
Proof.
  induction lines as [|l lines IH]; simpl; [reflexivity|].
  now rewrite map_app, IH.
Qed.

Lemma one_digit x : 0 <= x <= 9 -> String.length (str x) = 1%nat.
Proof.
  intros H. assert (H' : 0 <= x < 10) by lia. apply digit_cases in H'.
  repeat (destruct H' as [-> | H']; [reflexivity|]). now subst.
Qed.


Lemma py_int_concat_str (lines : list line) :
  List.concat lines <> [] ->
  (forall x, In x (List.concat lines) -> 0 <= x) ->
  py_int (concat_str lines) = Returned (concat_value (List.concat lines)).
Proof.
  intros Hne Hpos. unfold concat_str. rewrite flat_map_str.
  now apply py_int_joined.
Qed.



(** ** The loop body on a well-formed ring *)

Lemma slice_to_nonempty (r : ring) n :
  0 < n -> r <> [] -> slice_to r n <> [].
Proof.
  intros Hn Hr. unfold slice_to.
  replace (0 <=? n) with true by (symmetry; apply Z.leb_le; lia).
  destruct r as [|x t]; [congruence|].
  destruct (Z.to_nat n) eqn:E; [lia|]. discriminate.
Qed.

Lemma py_min_total l : l <> [] -> exists m, py_min l = Returned m.
Proof. destruct l; [congruence|]. intros _. simpl. eauto. Qed.

Lemma nth_nonneg (r : ring) k :
  (forall x, In x r -> 0 <= x) -> 0 <= nth k r 0.
Proof.
  intros H. destruct (nth_in_or_default k r 0) as [Hin| ->]; [auto|lia].
Qed.

Lemma py_set_all_equal l :
  (forall a b, In a l -> In b l -> a = b) -> (len (py_set l) >? 1) = false.
Proof.
  intros H. unfold len, py_set.
  pose proof (NoDup_nodup Z.eq_dec l) as Hn.
  assert (Hin : forall x, In x (nodup Z.eq_dec l) -> In x l)
    by (intros x; apply nodup_In).
  destruct (nodup Z.eq_dec l) as [|x [|y t]]; try reflexivity.
  exfalso. inversion Hn as [|? ? Hx _]; subst. apply Hx.
  rewrite (H x y); [now left| |]; apply Hin; simpl; auto.
Qed.

(** What the loop body decides on a ring of [2n] non-negative values. *)
Lemma examine_well_formed n (r : ring) :
  0 < n -> len r = 2 * n -> (forall x, In x r -> 0 <= x) ->
  exists m lines c,
    py_min (slice_to r n) = Returned m /\
    ring_lines (constraints n) r = Returned lines /\
    py_int (concat_str lines) = Returned c /\
    examine n (constraints n) r
    = Returned
        (if (n =? 5) && negb (py_in 10 (slice_to r n)) then None
         else if negb (m =? nth 0 r 0) then None
         else if len (py_set (map py_sum lines)) >? 1 then None
         else Some (lines, c)).
Proof.
  intros Hn Hlen Hpos.
  assert (Hr : r <> []) by (intros ->; change (0 = 2 * n) in Hlen; lia).
  destruct (py_min_total _ (slice_to_nonempty r n Hn Hr)) as [m Hm].
  assert (H0r : 0 <= 0 < len r) by lia.
  destruct (getitem_total r 0 H0r) as [r0 H0].
  destruct (ring_lines_total n r Hn Hlen) as [lines Hl].
  pose proof (kept_lines n r lines Hn Hl) as Hk.
  assert (Hc : exists c, py_int (concat_str lines) = Returned c).
  { eexists. apply py_int_concat_str.
    - subst lines. destruct (range 0 n) eqn:E; [|discriminate].
      pose proof (range_length 0 n) as L. rewrite E in L. simpl in L. lia.
    - intros x Hx. apply in_concat in Hx. destruct Hx as [l [Hl' Hx]].
      subst lines. apply in_map_iff in Hl'. destruct Hl' as [i [<- _]].
      destruct Hx as [<-|[<-|[<-|[]]]]; now apply nth_nonneg. }
  destruct Hc as [c Hc].
  exists m, lines, c. repeat split; auto.
  unfold examine.
  destruct ((n =? 5) && negb (py_in 10 (slice_to r n))); [reflexivity|].
  rewrite Hm, H0. cbn [bind].
  apply getitem_nth in H0; [|lia]. destruct H0 as [_ H0]. simpl in H0.
  subst r0.
  destruct (negb (m =? nth 0 r 0)); [reflexivity|].
  rewrite Hl. cbn [bind].
  destruct (len (py_set (map py_sum lines)) >? 1); [reflexivity|].
  rewrite Hc. reflexivity.
Qed.

(** X3: on a ring of [2n] non-negative values whose lines, written in
    decimal, stay within the interpreter's limit on the digits of an [int],
    one iteration of the loop raises nothing: it leaves the list and the
    maximum as they are, or appends one description and keeps the larger
    maximum. *)
Theorem X3_loop_body_safe (n : Z) (r : ring) (strs : list string) (mx : Z) :
  0 < n -> len r = 2 * n -> (forall x, In x r -> 0 <= x) ->
  (forall lines,
     ring_lines (constraints n) r = Returned lines ->
     Z.of_nat (String.length (concat_str lines)) <= int_max_str_digits) ->
  exists strs' mx',
    loop_body n (constraints n) (strs, mx) r = Returned (strs', mx') /\
    mx <= mx' /\
    ((strs' = strs /\ mx' = mx) \/ exists d, strs' = strs ++ [d]).
Proof.
  intros Hn Hlen Hpos _.
  destruct (examine_well_formed n r Hn Hlen Hpos) as [m [lines [c [_ [_ [_ He]]]]]].
  rewrite loop_body_examine, He. cbn [bind].
  match goal with
  | |- context [match ?o with Some _ => _ | None => _ end] => destruct o as [[l c']|]
  end.
  - exists (strs ++ [sol_str_of l]), (Z.max mx c'). repeat split; [lia|].
    right. eauto.
  - exists strs, mx. repeat split; [lia|]. now left.
Qed.

Lemma X3_loop_body_safe_witness :
  exists strs' mx',
    loop_body 3 (constraints 3) (["4,2,3; 5,3,1; 6,1,2"%string], 423531612)
              [4; 6; 5; 3; 2; 1]
    = Returned (strs', mx') /\
    423531612 <= mx' /\
    ((strs' = ["4,2,3; 5,3,1; 6,1,2"%string] /\ mx' = 423531612)
     \/ exists d, strs' = ["4,2,3; 5,3,1; 6,1,2"%string] ++ [d]).
Proof.
  apply (X3_loop_body_safe 3 [4; 6; 5; 3; 2; 1]).
  - lia.
  - reflexivity.
  - simpl. intuition lia.
  - intros lines H. vm_compute in H. injection H as <-.
    vm_compute. discriminate.
Defined.

(** ** Every magic ring is reported *)

Lemma first_in_externals (r : ring) n :
  0 < n -> r <> [] -> In (nth 0 r 0) (externals n r).
Proof.
  intros Hn Hr. unfold externals, slice_to.
  replace (0 <=? n) with true by (symmetry; apply Z.leb_le; lia).
  destruct r as [|x t]; [congruence|].
  destruct (Z.to_nat n) eqn:E; [lia|]. now left.
Qed.

Lemma ring_well_formed n (r : ring) :
  0 < n -> Permutation r (entries n) ->
  len r = 2 * n /\ forall x, In x r -> 0 <= x.
Proof.
  intros Hn Hp. split.
  - unfold len. rewrite (Permutation_length Hp), entries_length by lia. lia.
  - intros x Hx. apply (Permutation_in _ Hp) in Hx.
    unfold entries in Hx. apply range_In in Hx. lia.
Qed.

Lemma ring_kept n (r : ring) :
  valid_n n ->
  Permutation r (entries n) ->
  (forall x, In x (externals n r) -> nth 0 r 0 <= x) ->
  (forall i, 0 <= i < n -> line_sum n r i = line_sum n r 0) ->
  (n = 5 -> In 10 (externals n r)) ->
  exists lines c,
    ring_lines (constraints n) r = Returned lines /\
    In (Solution r lines c) (found n).
Proof.
  intros Hv Hp Hcanon Hmagic H10.
  assert (Hn : 0 < n) by (apply valid_n_range in Hv; lia).
  destruct (ring_well_formed n r Hn Hp) as [Hlen Hpos].
  destruct (examine_well_formed n r Hn Hlen Hpos)
    as [m [lines [c [Hm [Hl [_ He]]]]]].
  assert (Hr : r <> []) by (intros ->; change (0 = 2 * n) in Hlen; lia).
  assert (T1 : (n =? 5) && negb (py_in 10 (slice_to r n)) = false).
  { destruct (n =? 5) eqn:E; [|reflexivity]. apply Z.eqb_eq in E.
    apply H10, py_in_In in E. unfold externals in E. now rewrite E. }
  assert (T2 : negb (m =? nth 0 r 0) = false).
  { apply py_min_spec in Hm. destruct Hm as [Hin Hle].
    apply negb_false_iff, Z.eqb_eq, Z.le_antisymm.
    - apply Hle. now apply first_in_externals.
    - now apply Hcanon. }
  assert (T3 : (len (py_set (map py_sum lines)) >? 1) = false).
  { apply py_set_all_equal. rewrite (kept_lines n r lines Hn Hl), map_map.
    intros a b Ha Hb. apply in_map_iff in Ha, Hb.
    destruct Ha as [i [<- Hi]], Hb as [j [<- Hj]]. apply range_In in Hi, Hj.
    change (line_sum n r i = line_sum n r j).
    now rewrite (Hmagic i), (Hmagic j). }
  rewrite T1, T2, T3 in He.
  exists lines, c. split; [exact Hl|].
  apply found_complete; auto.
  now apply perms_of_length_complete.
Qed.

Lemma ring_reported n (r : ring) :
  valid_n n ->
  Permutation r (entries n) ->
  (forall x, In x (externals n r) -> nth 0 r 0 <= x) ->
  (forall i, 0 <= i < n -> line_sum n r i = line_sum n r 0) ->
  (n = 5 -> In 10 (externals n r)) ->
  exists strs mx lines,
    main (PyInt n) = Returned (strs, mx) /\
    ring_lines (constraints n) r = Returned lines /\
    In (sol_str_of lines) strs.
Proof.
  intros Hv Hp Hcanon Hmagic H10.
  destruct (ring_kept n r Hv Hp Hcanon Hmagic H10) as [lines [c [Hl Hf]]].
  destruct (main_descriptions n Hv) as [strs [mx [Hmain Hd]]].
  exists strs, mx, lines. repeat split; auto.
  apply Hd. exists (Solution r lines c). auto.
Qed.

(** ** The maximum concatenation *)

(** The number the loop reads for a kept candidate is the decimal
    concatenation of the values of its lines. *)
Lemma kept_concatenation n (r : ring) lines c :
  valid_n n ->
  In r (permutations (entries n)) ->
  examine n (constraints n) r = Returned (Some (lines, c)) ->
  c = decimal_concatenation (line_values n r).
Proof.
  intros Hn Hr He.
  pose proof (found_complete n r lines c Hn Hr He) as Hf.
  valid_cases Hn; each_found Hf ltac:(vm_compute; reflexivity).
Qed.

(** C5: for every accepted [n], the second component of the result is the
    largest concatenation over the candidates kept by the loop: the number
    read for a kept candidate is the decimal concatenation of the values of
    its lines, the maximum bounds every one of them and is one of them.  In
    the specification's terms, it is the largest decimal concatenation over
    the orderings of 1..2n in canonical form whose lines have one sum (with
    10 external for n = 5).  A loop that keeps no candidate leaves the list
    empty and the maximum at 0. *)
Theorem C5_maximum_concatenation (n : Z) :
  valid_n n ->
  exists strs mx,
    main (PyInt n) = Returned (strs, mx) /\
    (forall r lines c,
       In r (permutations (entries n)) ->
       examine n (constraints n) r = Returned (Some (lines, c)) ->
       c <= mx) /\
    (exists r lines,
       In r (permutations (entries n)) /\
       examine n (constraints n) r = Returned (Some (lines, mx))) /\
    (forall rings,
       (forall r, In r rings -> examine n (constraints n) r = Returned None) ->
       for_loop n (constraints n) rings (Returned ([], 0)) = Returned ([], 0)) /\
    (forall r lines c,
       In r (permutations (entries n)) ->
       examine n (constraints n) r = Returned (Some (lines, c)) ->
       c = decimal_concatenation (line_values n r)) /\
    (forall r,
       Permutation r (entries n) ->
       (forall x, In x (firstn (Z.to_nat n) r) -> nth 0 r 0 <= x) ->
       (forall i, 0 <= i < n -> line_sum n r i = line_sum n r 0) ->
       (n = 5 -> In 10 (firstn (Z.to_nat n) r)) ->
       decimal_concatenation (line_values n r) <= mx) /\
    (exists r,
       Permutation r (entries n) /\
       (forall x, In x (firstn (Z.to_nat n) r) -> nth 0 r 0 <= x) /\
       (forall i, 0 <= i < n -> line_sum n r i = line_sum n r 0) /\
       (n = 5 -> In 10 (firstn (Z.to_nat n) r)) /\
       decimal_concatenation (line_values n r) = mx).
Proof.
  intros Hn. eexists _, _. split; [apply main_valid; exact Hn|].
  assert (Hbound : forall r lines c,
            In r (permutations (entries n)) ->
            examine n (constraints n) r = Returned (Some (lines, c)) ->
            c <= fold_left Z.max (map sol_concat (found n)) 0).
  { intros r lines c Hr He.
    pose proof (found_complete n r lines c Hn Hr He) as Hf.
    destruct (fold_max_spec (map sol_concat (found n)) 0) as [[_ H] _].
    apply H. apply in_map_iff. exists (Solution r lines c). auto. }
  assert (Hext : forall r : ring, externals n r = firstn (Z.to_nat n) r).
  { intros r. unfold externals, slice_to. apply valid_n_range in Hn.
    destruct (0 <=? n) eqn:E; auto. apply Z.leb_gt in E. lia. }
  split; [exact Hbound|]. split; [|split; [|split; [|split]]].
  - assert (Hs : exists s, In s (found n) /\
               sol_concat s = fold_left Z.max (map sol_concat (found n)) 0).
    { valid_cases Hn.
      + exists (Solution [4; 6; 5; 3; 2; 1] [[4; 3; 2]; [6; 2; 1]; [5; 1; 3]]
                         432621513).
        split; [vm_compute; tauto|reflexivity].
      + exists (Solution [4; 7; 8; 5; 6; 2; 3; 1]
                         [[4; 6; 2]; [7; 2; 3]; [8; 3; 1]; [5; 1; 6]]
                         462723831516).
        split; [vm_compute; tauto|reflexivity].
      + exists (Solution [6; 10; 9; 8; 7; 5; 3; 1; 4; 2]
                         [[6; 5; 3]; [10; 3; 1]; [9; 1; 4]; [8; 4; 2]; [7; 2; 5]]
                         6531031914842725).
        split; [vm_compute; tauto|reflexivity]. }
    destruct Hs as [s [Hs Hc]].
    destruct (found_sound n s Hn Hs) as [Hr He].
    exists (sol_ring s), (sol_lines s). rewrite <- Hc. auto.
  - intros rings H. now apply for_loop_all_skipped.
  - intros r lines c. now apply kept_concatenation.
  - intros r Hp Hc Hm H10.
    destruct (ring_kept n r Hn Hp) as [lines [c [_ Hf]]];
      try (rewrite Hext); auto.
    destruct (found_sound n _ Hn Hf) as [Hr He]. simpl in Hr, He.
    rewrite <- (kept_concatenation n r lines c Hn Hr He).
    now apply (Hbound r lines c).
  - valid_cases Hn.
    + exists [4; 6; 5; 3; 2; 1]. split; [|split; [|split; [|split]]].
      * apply permutations_perm.
        apply (found_sound 3 (Solution [4; 6; 5; 3; 2; 1]
                 [[4; 3; 2]; [6; 2; 1]; [5; 1; 3]] 432621513));
          [left; reflexivity|vm_compute; tauto].
      * simpl. intuition lia.
      * intros i Hi. assert (C : i = 0 \/ i = 1 \/ i = 2) by lia.
        destruct C as [-> | [-> | ->]]; reflexivity.
      * discriminate.
      * vm_compute. reflexivity.
    + exists [4; 7; 8; 5; 6; 2; 3; 1]. split; [|split; [|split; [|split]]].
      * apply permutations_perm.
        apply (found_sound 4 (Solution [4; 7; 8; 5; 6; 2; 3; 1]
                 [[4; 6; 2]; [7; 2; 3]; [8; 3; 1]; [5; 1; 6]] 462723831516));
          [right; left; reflexivity|vm_compute; tauto].
      * simpl. intuition lia.
      * intros i Hi. assert (C : i = 0 \/ i = 1 \/ i = 2 \/ i = 3) by lia.
        destruct C as [-> | [-> | [-> | ->]]]; reflexivity.
      * discriminate.
      * vm_compute. reflexivity.
    + exists [6; 10; 9; 8; 7; 5; 3; 1; 4; 2].
      split; [|split; [|split; [|split]]].
      * apply permutations_perm.
        apply (found_sound 5 (Solution [6; 10; 9; 8; 7; 5; 3; 1; 4; 2]
                 [[6; 5; 3]; [10; 3; 1]; [9; 1; 4]; [8; 4; 2]; [7; 2; 5]]
                 6531031914842725));
          [right; right; reflexivity|vm_compute; tauto].
      * simpl. intuition lia.
      * intros i Hi.
        assert (C : i = 0 \/ i = 1 \/ i = 2 \/ i = 3 \/ i = 4) by lia.
        destruct C as [-> | [-> | [-> | [-> | ->]]]]; reflexivity.
      * intros _. simpl. tauto.
      * vm_compute. reflexivity.
Qed.

Lemma C5_maximum_concatenation_witness :
  valid_n 5 /\
  exists strs mx,
    main (PyInt 5) = Returned (strs, mx) /\
    (forall r lines c,
       In r (permutations (entries 5)) ->
       examine 5 (constraints 5) r = Returned (Some (lines, c)) ->
       c <= mx) /\
    (exists r lines,
       In r (permutations (entries 5)) /\
       examine 5 (constraints 5) r = Returned (Some (lines, mx))) /\
    (forall rings,
       (forall r, In r rings -> examine 5 (constraints 5) r = Returned None) ->
       for_loop 5 (constraints 5) rings (Returned ([], 0)) = Returned ([], 0)) /\
    (forall r lines c,
       In r (permutations (entries 5)) ->
       examine 5 (constraints 5) r = Returned (Some (lines, c)) ->
       c = decimal_concatenation (line_values 5 r)) /\
    (forall r,
       Permutation r (entries 5) ->
       (forall x, In x (firstn (Z.to_nat 5) r) -> nth 0 r 0 <= x) ->
       (forall i, 0 <= i < 5 -> line_sum 5 r i = line_sum 5 r 0) ->
       (5 = 5 -> In 10 (firstn (Z.to_nat 5) r)) ->
       decimal_concatenation (line_values 5 r) <= mx) /\
    (exists r,
       Permutation r (entries 5) /\
       (forall x, In x (firstn (Z.to_nat 5) r) -> nth 0 r 0 <= x) /\
       (forall i, 0 <= i < 5 -> line_sum 5 r i = line_sum 5 r 0) /\
       (5 = 5 -> In 10 (firstn (Z.to_nat 5) r)) /\
       decimal_concatenation (line_values 5 r) = mx).
Proof.
  assert (H : valid_n 5) by (right; right; reflexivity).
  split; [exact H|exact (C5_maximum_concatenation 5 H)].
Defined.

(** X4: for every accepted [n], an ordering of 1..2n whose first value is
    the least external node, whose lines all have the sum of line 0 and,
    for n = 5, with 10 among the external nodes, has its description in the
    list [main] returns. *)
Theorem X4_canonical_magic_ring_reported (n : Z) (r : ring) :
  valid_n n ->
  Permutation r (entries n) ->
  (forall x, In x (externals n r) -> nth 0 r 0 <= x) ->
  (forall i, 0 <= i < n -> line_sum n r i = line_sum n r 0) ->
  (n = 5 -> In 10 (externals n r)) ->
  exists strs mx lines,
    main (PyInt n) = Returned (strs, mx) /\
    ring_lines (constraints n) r = Returned lines /\
    In (sol_str_of lines) strs.
Proof.
  intros Hv Hp Hcanon Hmagic H10.
  destruct (ring_kept n r Hv Hp Hcanon Hmagic H10) as [lines [c [Hl Hf]]].
  destruct (main_descriptions n Hv) as [strs [mx [Hmain Hd]]].
  exists strs, mx, lines. split; [exact Hmain|]. split; [exact Hl|].
  apply Hd. now exists (Solution r lines c).
Qed.

Lemma X4_canonical_magic_ring_reported_witness :
  exists strs mx lines,
    main (PyInt 3) = Returned (strs, mx) /\
    ring_lines (constraints 3) [4; 6; 5; 3; 2; 1] = Returned lines /\
    In (sol_str_of lines) strs.
Proof.
  apply (X4_canonical_magic_ring_reported 3 [4; 6; 5; 3; 2; 1]).
  - left. reflexivity.
  - apply NoDup_Permutation.
    + repeat constructor; simpl; intuition discriminate.
    + apply range_NoDup.
    + intros x. unfold entries. rewrite range_In. simpl. lia.
  - simpl. intuition lia.
  - intros i Hi. assert (C : i = 0 \/ i = 1 \/ i = 2) by lia.
    destruct C as [-> | [-> | ->]]; reflexivity.
  - discriminate.
Defined.

(** ** Rotations *)

Lemma rotate_left_perm {A : Type} (l : list A) : Permutation (rotate_left l) l.
Proof.
  destruct l as [|x t]; simpl; [constructor|].
  symmetry. apply Permutation_cons_append.
Qed.

Lemma rotate_ring_perm n (r : ring) : 0 <= n -> Permutation (rotate_ring n r) r.
Proof.
  intros Hn. unfold rotate_ring, slice_to.
  replace (0 <=? n) with true by (symmetry; apply Z.leb_le; lia).
  rewrite !rotate_left_perm. now rewrite firstn_skipn.
Qed.

Lemma rotate_iter_perm n (r : ring) k :
  0 <= n -> Permutation (Nat.iter k (rotate_ring n) r) r.
Proof.
  intros Hn. induction k as [|k IH]; simpl; [reflexivity|].
  now rewrite rotate_ring_perm.
Qed.

Section Rotations.
Variable n : Z.
Variable r : ring.
Hypothesis accepted : valid_n n.
Hypothesis ordering : Permutation r (entries n).

Lemma rotation_reported (k : nat) :
  (forall x, In x (externals n (Nat.iter k (rotate_ring n) r)) ->
             nth 0 (Nat.iter k (rotate_ring n) r) 0 <= x) ->
  (forall i, 0 <= i < n ->
             line_sum n (Nat.iter k (rotate_ring n) r) i
             = line_sum n (Nat.iter k (rotate_ring n) r) 0) ->
  (n = 5 -> In 10 (externals n (Nat.iter k (rotate_ring n) r))) ->
  exists strs mx lines,
    main (PyInt n) = Returned (strs, mx) /\
    ring_lines (constraints n) (Nat.iter k (rotate_ring n) r)
      = Returned lines /\
    In (sol_str_of lines) strs.
Proof.
  intros Hc Hm H10. apply ring_reported; auto.
  eapply perm_trans; [|exact ordering].
  apply rotate_iter_perm. apply valid_n_range in accepted. lia.
Qed.
End Rotations.

(** X5: for every accepted [n], a ring of the values 1..2n whose lines all
    have the same sum (with 10 among the external nodes when n = 5) is
    reported in one of its [n] rotations: the test on the least external
    node drops rotations, never a ring. *)
Theorem X5_magic_ring_reported_up_to_rotation (n : Z) (r : ring) :
  valid_n n ->
  Permutation r (entries n) ->
  (forall i, 0 <= i < n -> line_sum n r i = line_sum n r 0) ->
  (n = 5 -> In 10 (externals n r)) ->
  exists k, (k < Z.to_nat n)%nat /\
    exists strs mx lines,
      main (PyInt n) = Returned (strs, mx) /\
      ring_lines (constraints n) (Nat.iter k (rotate_ring n) r)
        = Returned lines /\
      In (sol_str_of lines) strs.
Proof.
  intros Hv Hp Hm H10.
  pose proof (Permutation_length Hp) as Hlen.
  pose proof Hv as Hv'. valid_cases Hv'.
  - change (List.length (entries 3)) with 6%nat in Hlen.
    ring_of_length Hlen.
    pose proof (Hm 1 ltac:(lia)) as M1. pose proof (Hm 2 ltac:(lia)) as M2.
    unfold line_sum in M1, M2. simpl in M1, M2.
    match goal with
    | _ : Permutation [?a0; ?a1; ?a2; _; _; _] _ |- _ =>
        assert (C : (a0 <= a1 /\ a0 <= a2) \/ (a1 <= a0 /\ a1 <= a2)
                    \/ (a2 <= a0 /\ a2 <= a1)) by lia
    end.
    destruct C as [C | [C | C]];
      [exists 0%nat | exists 1%nat | exists 2%nat];
      (split; [simpl; lia|]);
      (apply (rotation_reported _ _ Hv Hp);
       [ turn_ring; intros x Hx; simpl in Hx |- *; intuition lia
       | turn_ring; intros i Hi; assert (Ci : i = 0 \/ i = 1 \/ i = 2) by lia;
         destruct Ci as [-> | [-> | ->]]; unfold line_sum; simpl; lia
       | discriminate ]).
  - change (List.length (entries 4)) with 8%nat in Hlen.
    ring_of_length Hlen.
    pose proof (Hm 1 ltac:(lia)) as M1. pose proof (Hm 2 ltac:(lia)) as M2.
    pose proof (Hm 3 ltac:(lia)) as M3.
    unfold line_sum in M1, M2, M3. simpl in M1, M2, M3.
    match goal with
    | _ : Permutation [?a0; ?a1; ?a2; ?a3; _; _; _; _] _ |- _ =>
        assert (C : (a0 <= a1 /\ a0 <= a2 /\ a0 <= a3)
                    \/ (a1 <= a0 /\ a1 <= a2 /\ a1 <= a3)
                    \/ (a2 <= a0 /\ a2 <= a1 /\ a2 <= a3)
                    \/ (a3 <= a0 /\ a3 <= a1 /\ a3 <= a2)) by lia
    end.
    destruct C as [C | [C | [C | C]]];
      [exists 0%nat | exists 1%nat | exists 2%nat | exists 3%nat];
      (split; [simpl; lia|]);
      (apply (rotation_reported _ _ Hv Hp);
       [ turn_ring; intros x Hx; simpl in Hx |- *; intuition lia
       | turn_ring; intros i Hi; assert (Ci : i = 0 \/ i = 1 \/ i = 2 \/ i = 3) by lia;
         destruct Ci as [-> | [-> | [-> | ->]]]; unfold line_sum; simpl; lia
       | discriminate ]).
  - change (List.length (entries 5)) with 10%nat in Hlen.
    ring_of_length Hlen.
    pose proof (Hm 1 ltac:(lia)) as M1. pose proof (Hm 2 ltac:(lia)) as M2.
    pose proof (Hm 3 ltac:(lia)) as M3. pose proof (Hm 4 ltac:(lia)) as M4.
    unfold line_sum in M1, M2, M3, M4. simpl in M1, M2, M3, M4.
    specialize (H10 eq_refl). simpl in H10.
    match goal with
    | _ : Permutation [?a0; ?a1; ?a2; ?a3; ?a4; _; _; _; _; _] _ |- _ =>
        assert (C : (a0 <= a1 /\ a0 <= a2 /\ a0 <= a3 /\ a0 <= a4)
                    \/ (a1 <= a0 /\ a1 <= a2 /\ a1 <= a3 /\ a1 <= a4)
                    \/ (a2 <= a0 /\ a2 <= a1 /\ a2 <= a3 /\ a2 <= a4)
                    \/ (a3 <= a0 /\ a3 <= a1 /\ a3 <= a2 /\ a3 <= a4)
                    \/ (a4 <= a0 /\ a4 <= a1 /\ a4 <= a2 /\ a4 <= a3))
          by lia
    end.
    destruct C as [C | [C | [C | [C | C]]]];
      [exists 0%nat | exists 1%nat | exists 2%nat | exists 3%nat
       | exists 4%nat];
      (split; [simpl; lia|]);
      (apply (rotation_reported _ _ Hv Hp);
       [ turn_ring; intros x Hx; simpl in Hx |- *; intuition lia
       | turn_ring; intros i Hi;
         assert (Ci : i = 0 \/ i = 1 \/ i = 2 \/ i = 3 \/ i = 4) by lia;
         destruct Ci as [-> | [-> | [-> | [-> | ->]]]];
         unfold line_sum; simpl; lia
       | turn_ring; intros _; simpl; tauto ]).
Qed.

Lemma X5_magic_ring_reported_up_to_rotation_witness :
  exists k, (k < Z.to_nat 3)%nat /\
    exists strs mx lines,
      main (PyInt 3) = Returned (strs, mx) /\
      ring_lines (constraints 3) (Nat.iter k (rotate_ring 3) [6; 5; 4; 2; 1; 3])
        = Returned lines /\
      In (sol_str_of lines) strs.
Proof.
  apply (X5_magic_ring_reported_up_to_rotation 3 [6; 5; 4; 2; 1; 3]).
  - left. reflexivity.
  - apply NoDup_Permutation.
    + repeat constructor; simpl; intuition discriminate.
    + apply range_NoDup.
    + intros x. unfold entries. rewrite range_In. simpl. lia.
  - intros i Hi. assert (C : i = 0 \/ i = 1 \/ i = 2) by lia.
    destruct C as [-> | [-> | ->]]; reflexivity.
  - discriminate.
Defined.

(** ** Reflections *)

Lemma reflect_ring_perm n (r : ring) : 0 <= n -> Permutation (reflect_ring n r) r.
Proof.
  intros Hn. unfold reflect_ring, slice_to.
  replace (0 <=? n) with true by (symmetry; apply Z.leb_le; lia).
  rewrite <- (firstn_skipn (Z.to_nat n) r) at 4.
  apply Permutation_app.
  - destruct (firstn (Z.to_nat n) r) as [|a t]; [constructor|].
    constructor. symmetry. apply Permutation_rev.
  - rewrite <- !Permutation_rev. now rewrite firstn_skipn.
Qed.

(** X6: the list [main] returns is closed under reflection: with a reported
    ring, the same ring read in the other direction from the same first
    external node is another ordering, and it is reported too. *)
Theorem X6_reflection_reported (n : Z) (r : ring) :
  valid_n n ->
  Permutation r (entries n) ->
  (forall x, In x (externals n r) -> nth 0 r 0 <= x) ->
  (forall i, 0 <= i < n -> line_sum n r i = line_sum n r 0) ->
  (n = 5 -> In 10 (externals n r)) ->
  reflect_ring n r <> r /\
  exists strs mx lines,
    main (PyInt n) = Returned (strs, mx) /\
    ring_lines (constraints n) (reflect_ring n r) = Returned lines /\
    In (sol_str_of lines) strs.
Proof.
  intros Hv Hp Hc Hm H10.
  assert (Hp' : Permutation (reflect_ring n r) (entries n)).
  { eapply perm_trans; [|exact Hp]. apply reflect_ring_perm.
    apply valid_n_range in Hv. lia. }
  assert (Hd : NoDup r).
  { apply (Permutation_NoDup (Permutation_sym Hp)). apply range_NoDup. }
  pose proof (Permutation_length Hp) as Hlen.
  pose proof Hv as Hv'. valid_cases Hv'.
  - change (List.length (entries 3)) with 6%nat in Hlen.
    ring_of_length Hlen.
    pose proof (Hm 1 ltac:(lia)) as M1. pose proof (Hm 2 ltac:(lia)) as M2.
    unfold line_sum in M1, M2. simpl in M1, M2.
    match goal with
    | _ : Permutation [?a0; ?a1; ?a2; _; _; _] _ |- _ =>
        assert (C : a0 <= a1 /\ a0 <= a2)
          by (repeat split; apply Hc; simpl; tauto)
    end.
    split.
    + mirror_ring. intros E. inversion E; subst.
      repeat match goal with
             | H : NoDup (_ :: _) |- _ => inversion H; clear H; subst
             end.
      simpl in *. intuition.
    + apply ring_reported; auto;
        [ mirror_ring; intros x Hx; simpl in Hx |- *; intuition lia
        | mirror_ring; intros i Hi; assert (Ci : i = 0 \/ i = 1 \/ i = 2) by lia;
          destruct Ci as [-> | [-> | ->]]; unfold line_sum; simpl; lia
        | discriminate ].
  - change (List.length (entries 4)) with 8%nat in Hlen.
    ring_of_length Hlen.
    pose proof (Hm 1 ltac:(lia)) as M1. pose proof (Hm 2 ltac:(lia)) as M2.
    pose proof (Hm 3 ltac:(lia)) as M3.
    unfold line_sum in M1, M2, M3. simpl in M1, M2, M3.
    match goal with
    | _ : Permutation [?a0; ?a1; ?a2; ?a3; _; _; _; _] _ |- _ =>
        assert (C : a0 <= a1 /\ a0 <= a2 /\ a0 <= a3)
          by (repeat split; apply Hc; simpl; tauto)
    end.
    split.
    + mirror_ring. intros E. inversion E; subst.
      repeat match goal with
             | H : NoDup (_ :: _) |- _ => inversion H; clear H; subst
             end.
      simpl in *. intuition.
    + apply ring_reported; auto;
        [ mirror_ring; intros x Hx; simpl in Hx |- *; intuition lia
        | mirror_ring; intros i Hi;
          assert (Ci : i = 0 \/ i = 1 \/ i = 2 \/ i = 3) by lia;
          destruct Ci as [-> | [-> | [-> | ->]]]; unfold line_sum; simpl; lia
        | discriminate ].
  - change (List.length (entries 5)) with 10%nat in Hlen.
    ring_of_length Hlen.
    pose proof (Hm 1 ltac:(lia)) as M1. pose proof (Hm 2 ltac:(lia)) as M2.
    pose proof (Hm 3 ltac:(lia)) as M3. pose proof (Hm 4 ltac:(lia)) as M4.
    unfold line_sum in M1, M2, M3, M4. simpl in M1, M2, M3, M4.
    specialize (H10 eq_refl). simpl in H10.
    match goal with
    | _ : Permutation [?a0; ?a1; ?a2; ?a3; ?a4; _; _; _; _; _] _ |- _ =>
        assert (C : a0 <= a1 /\ a0 <= a2 /\ a0 <= a3 /\ a0 <= a4)
          by (repeat split; apply Hc; simpl; tauto)
    end.
    split.
    + mirror_ring. intros E. inversion E; subst.
      repeat match goal with
             | H : NoDup (_ :: _) |- _ => inversion H; clear H; subst
             end.
      simpl in *. intuition.
    + apply ring_reported; auto;
        [ mirror_ring; intros x Hx; simpl in Hx |- *; intuition lia
        | mirror_ring; intros i Hi;
          assert (Ci : i = 0 \/ i = 1 \/ i = 2 \/ i = 3 \/ i = 4) by lia;
          destruct Ci as [-> | [-> | [-> | [-> | ->]]]];
          unfold line_sum; simpl; lia
        | mirror_ring; intros _; simpl; tauto ].
Qed.

Lemma X6_reflection_reported_witness :
  reflect_ring 3 [4; 6; 5; 3; 2; 1] = [4; 5; 6; 2; 3; 1] /\
  reflect_ring 3 [4; 6; 5; 3; 2; 1] <> [4; 6; 5; 3; 2; 1] /\
  exists strs mx lines,
    main (PyInt 3) = Returned (strs, mx) /\
    ring_lines (constraints 3) (reflect_ring 3 [4; 6; 5; 3; 2; 1])
      = Returned lines /\
    In (sol_str_of lines) strs.
Proof.
  split; [reflexivity|].
  apply (X6_reflection_reported 3 [4; 6; 5; 3; 2; 1]).
  - left. reflexivity.
  - apply NoDup_Permutation.
    + repeat constructor; simpl; intuition discriminate.
    + apply range_NoDup.
    + intros x. unfold entries. rewrite range_In. simpl. lia.
  - simpl. intuition lia.
  - intros i Hi. assert (C : i = 0 \/ i = 1 \/ i = 2) by lia.
    destruct C as [-> | [-> | ->]]; reflexivity.
  - discriminate.
Defined.

(** ** The magic total *)

Lemma py_sum_shift l : forall a, fold_left Z.add l a = a + py_sum l.
Proof.
  unfold py_sum. induction l as [|x l IH]; intros a; simpl; [lia|].
  rewrite (IH (a + x)), (IH x). lia.
Qed.

Lemma py_sum_cons x l : py_sum (x :: l) = x + py_sum l.
Proof. unfold py_sum at 1. simpl. apply py_sum_shift. Qed.

Lemma py_sum_perm l l' : Permutation l l' -> py_sum l = py_sum l'.
Proof.
  induction 1 as [|x l l' _ IH|x y l|l l' l'' _ IH1 _ IH2].
  - reflexivity.
  - rewrite !py_sum_cons. lia.
  - rewrite !py_sum_cons. lia.
  - congruence.
Qed.

(** X7: in a ring of the values 1..2n whose [n] lines have one sum, [n]
    times that sum is the sum of all values plus the sum of the internal
    nodes, which every line pair shares: n * total = n * (2n + 1) + the
    internal nodes. *)
Theorem X7_magic_total_identity (n : Z) (r : ring) :
  valid_n n ->
  Permutation r (entries n) ->
  (forall i, 0 <= i < n -> line_sum n r i = line_sum n r 0) ->
  n * line_sum n r 0 = n * (2 * n + 1) + py_sum (skipn (Z.to_nat n) r).
Proof.
  intros Hv Hp Hm.
  pose proof (py_sum_perm _ _ Hp) as Hs.
  pose proof (Permutation_length Hp) as Hlen.
  valid_cases Hv.
  - change (List.length (entries 3)) with 6%nat in Hlen.
    change (py_sum (entries 3)) with 21 in Hs.
    ring_of_length Hlen.
    pose proof (Hm 1 ltac:(lia)) as M1. pose proof (Hm 2 ltac:(lia)) as M2.
    unfold line_sum in M1, M2. simpl in M1, M2.
    rewrite !py_sum_cons in Hs. change (py_sum []) with 0 in Hs.
    name_totals ES ET. rewrite !py_sum_cons in ET.
    change (py_sum []) with 0 in ET. lia.
  - change (List.length (entries 4)) with 8%nat in Hlen.
    change (py_sum (entries 4)) with 36 in Hs.
    ring_of_length Hlen.
    pose proof (Hm 1 ltac:(lia)) as M1. pose proof (Hm 2 ltac:(lia)) as M2.
    pose proof (Hm 3 ltac:(lia)) as M3.
    unfold line_sum in M1, M2, M3. simpl in M1, M2, M3.
    rewrite !py_sum_cons in Hs. change (py_sum []) with 0 in Hs.
    name_totals ES ET. rewrite !py_sum_cons in ET.
    change (py_sum []) with 0 in ET. lia.
  - change (List.length (entries 5)) with 10%nat in Hlen.
    change (py_sum (entries 5)) with 55 in Hs.
    ring_of_length Hlen.
    pose proof (Hm 1 ltac:(lia)) as M1. pose proof (Hm 2 ltac:(lia)) as M2.
    pose proof (Hm 3 ltac:(lia)) as M3. pose proof (Hm 4 ltac:(lia)) as M4.
    unfold line_sum in M1, M2, M3, M4. simpl in M1, M2, M3, M4.
    rewrite !py_sum_cons in Hs. change (py_sum []) with 0 in Hs.
    name_totals ES ET. rewrite !py_sum_cons in ET.
    change (py_sum []) with 0 in ET. lia.
Qed.

Lemma X7_magic_total_identity_witness :
  3 * line_sum 3 [4; 6; 5; 3; 2; 1] 0
  = 3 * (2 * 3 + 1) + py_sum (skipn (Z.to_nat 3) [4; 6; 5; 3; 2; 1]).
Proof.
  apply (X7_magic_total_identity 3 [4; 6; 5; 3; 2; 1]).
  - left. reflexivity.
  - apply NoDup_Permutation.
    + repeat constructor; simpl; intuition discriminate.
    + apply range_NoDup.
    + intros x. unfold entries. rewrite range_In. simpl. lia.
  - intros i Hi. assert (C : i = 0 \/ i = 1 \/ i = 2) by lia.
    destruct C as [-> | [-> | ->]]; reflexivity.
Defined.

(** ** How many digits the concatenation has *)

Lemma join_empty_length l :
  String.length (join "" l) = list_sum (map String.length l).
Proof.
  induction l as [|s l IH]; [reflexivity|].
  rewrite join_empty_cons, length_append, IH. reflexivity.
Qed.

Lemma concat_str_length (lines : list line) :
  String.length (concat_str lines)
  = list_sum (map (fun x => String.length (str x)) (List.concat lines)).
Proof.
  unfold concat_str. now rewrite flat_map_str, join_empty_length, map_map.
Qed.

Lemma str_length_upto_10 x :
  1 <= x <= 10 -> String.length (str x) = if 10 =? x then 2%nat else 1%nat.
Proof.
  intros H.
  assert (C : x = 1 \/ x = 2 \/ x = 3 \/ x = 4 \/ x = 5 \/ x = 6 \/ x = 7
              \/ x = 8 \/ x = 9 \/ x = 10) by lia.
  repeat (destruct C as [-> | C]; [reflexivity|]). now subst.
Qed.

Lemma filter_length_perm {A : Type} (f : A -> bool) (l l' : list A) :
  Permutation l l' -> List.length (filter f l) = List.length (filter f l').
Proof.
  induction 1 as [|x l l' _ IH|x y l|l l' l'' _ IH1 _ IH2]; simpl.
  - reflexivity.
  - destruct (f x); simpl; congruence.
  - destruct (f x), (f y); reflexivity.
  - congruence.
Qed.

Lemma filter_length_sum {A : Type} (f : A -> bool) (l : list A) :
  List.length (filter f l)
  = list_sum (map (fun x => if f x then 1%nat else 0%nat) l).
Proof.
  induction l as [|x l IH]; simpl; [reflexivity|].
  destruct (f x); simpl; now rewrite IH.
Qed.

(** Ten digit lengths, one of them for the value 10, over the fifteen
    places of the five lines. *)
Lemma sixteen_or_seventeen (b0 b1 b2 b3 b4 b5 b6 b7 b8 b9 : bool) :
  list_sum (map (fun b : bool => if b then 1%nat else 0%nat)
                [b0; b1; b2; b3; b4; b5; b6; b7; b8; b9]) = 1%nat ->
  list_sum (map (fun b : bool => if b then 2%nat else 1%nat)
                [b0; b5; b6; b1; b6; b7; b2; b7; b8; b3; b8; b9; b4; b9; b5])
  = if existsb (fun b => b) [b0; b1; b2; b3; b4] then 16%nat else 17%nat.
Proof.
  destruct b0, b1, b2, b3, b4, b5, b6, b7, b8, b9;
    intros H; try discriminate H; reflexivity.
Qed.

Lemma str_lengths_upto_10 (xs : list Z) :
  (forall x, In x xs -> 1 <= x <= 10) ->
  map (fun x => String.length (str x)) xs
  = map (fun b : bool => if b then 2%nat else 1%nat) (map (Z.eqb 10) xs).
Proof.
  intros H. rewrite map_map. apply map_ext_in.
  intros x Hx. now apply str_length_upto_10, H.
Qed.

(** X8: the concatenation of the lines of any ring of the values 1..2n has
    9 digits for n = 3 and 12 for n = 4; for n = 5 it has 16 digits when 10
    is an external node and 17 when it is an internal one, so the test on
    10 keeps exactly the 16-digit rings. *)
Theorem X8_concatenation_length (n : Z) (r : ring) :
  valid_n n ->
  Permutation r (entries n) ->
  exists lines,
    ring_lines (constraints n) r = Returned lines /\
    String.length (concat_str lines)
    = if n =? 5 then (if py_in 10 (slice_to r n) then 16%nat else 17%nat)
      else Z.to_nat (3 * n).
Proof.
  intros Hv Hp.
  assert (Hb : forall x, In x r -> 1 <= x <= 2 * n).
  { intros x Hx. apply (Permutation_in _ Hp), range_In in Hx. lia. }
  pose proof (filter_length_perm (Z.eqb 10) _ _ Hp) as Hc.
  rewrite filter_length_sum in Hc.
  pose proof (Permutation_length Hp) as Hlen.
  valid_cases Hv.
  - change (List.length (entries 3)) with 6%nat in Hlen.
    ring_of_length Hlen. eexists. split; [reflexivity|].
    rewrite concat_str_length. cbn [List.concat map app list_sum fold_right].
    rewrite !one_digit by
      (match goal with |- 0 <= ?a <= 9 =>
         assert (1 <= a <= 2 * 3) by (apply Hb; simpl; tauto); lia end).
    reflexivity.
  - change (List.length (entries 4)) with 8%nat in Hlen.
    ring_of_length Hlen. eexists. split; [reflexivity|].
    rewrite concat_str_length. cbn [List.concat map app list_sum fold_right].
    rewrite !one_digit by
      (match goal with |- 0 <= ?a <= 9 =>
         assert (1 <= a <= 2 * 4) by (apply Hb; simpl; tauto); lia end).
    reflexivity.
  - change (List.length (entries 5)) with 10%nat in Hlen.
    change (List.length (filter (Z.eqb 10) (entries 5))) with 1%nat in Hc.
    ring_of_length Hlen. eexists. split; [reflexivity|].
    rewrite concat_str_length. cbn [List.concat app].
    rewrite str_lengths_upto_10
      by (intros x Hx; apply Hb; simpl in Hx |- *; tauto).
    match goal with
    | _ : Permutation [?a0; ?a1; ?a2; ?a3; ?a4; ?a5; ?a6; ?a7; ?a8; ?a9] _
      |- _ =>
        exact (sixteen_or_seventeen (10 =? a0) (10 =? a1) (10 =? a2)
                 (10 =? a3) (10 =? a4) (10 =? a5) (10 =? a6) (10 =? a7)
                 (10 =? a8) (10 =? a9) Hc)
    end.
Qed.

Lemma X8_concatenation_length_witness :
  exists lines,
    ring_lines (constraints 5) [1; 2; 3; 4; 5; 6; 7; 8; 9; 10]
      = Returned lines /\
    String.length (concat_str lines)
    = if 5 =? 5
      then (if py_in 10 (slice_to [1; 2; 3; 4; 5; 6; 7; 8; 9; 10] 5)
            then 16%nat else 17%nat)
      else Z.to_nat (3 * 5).
Proof.
  apply (X8_concatenation_length 5 [1; 2; 3; 4; 5; 6; 7; 8; 9; 10]).
  - right. right. reflexivity.
  - apply Permutation_refl.
Defined.

(** X9: the results for the two larger rings: [main(4)] returns twelve
    descriptions and the maximum 462723831516, [main(5)] returns four
    descriptions and the maximum 6531031914842725, the 16-digit answer the
    problem asks for. *)
Theorem X9_results_for_4_and_5 :
  main (PyInt 4)
  = Returned
      ([ "4,6,2; 7,2,3; 8,3,1; 5,1,6"; "4,2,6; 5,6,1; 8,1,3; 7,3,2";
         "3,8,2; 6,2,5; 7,5,1; 4,1,8"; "3,2,8; 4,8,1; 7,1,5; 6,5,2";
         "2,8,4; 3,4,7; 6,7,1; 5,1,8"; "2,6,5; 7,5,1; 8,1,4; 3,4,6";
         "2,5,6; 3,6,4; 8,4,1; 7,1,5"; "2,4,8; 5,8,1; 6,1,7; 3,7,4";
         "1,8,6; 2,6,7; 5,7,3; 4,3,8"; "1,8,5; 6,5,3; 7,3,4; 2,4,8";
         "1,6,8; 4,8,3; 5,3,7; 2,7,6"; "1,5,8; 2,8,4; 7,4,3; 6,3,5" ]%string,
       462723831516) /\
  main (PyInt 5)
  = Returned
      ([ "6,5,3; 10,3,1; 9,1,4; 8,4,2; 7,2,5";
         "6,3,5; 7,5,2; 8,2,4; 9,4,1; 10,1,3";
         "2,9,5; 10,5,1; 8,1,7; 6,7,3; 4,3,9";
         "2,5,9; 4,9,3; 6,3,7; 8,7,1; 10,1,5" ]%string,
       6531031914842725).
Proof.
  split.
  - rewrite (main_valid 4) by (right; left; reflexivity). reflexivity.
  - rewrite (main_valid 5) by (right; right; reflexivity). reflexivity.
Qed.

(** ** One rotation only *)

Lemma skipped_when_not_least (n : Z) (r : ring) (x : Z) (st : loop_state) :
  0 < n -> Permutation r (entries n) ->
  In x (externals n r) -> x < nth 0 r 0 ->
  loop_body n (constraints n) st r = Returned st.
Proof.
  intros Hn Hp Hx Hlt. destruct st as [strs mx].
  destruct (ring_well_formed n r Hn Hp) as [Hlen Hpos].
  destruct (examine_well_formed n r Hn Hlen Hpos)
    as [m [lines [c [Hm [_ [_ He]]]]]].
  rewrite loop_body_examine, He. cbn [bind].
  destruct ((n =? 5) && negb (py_in 10 (slice_to r n))); [reflexivity|].
  apply py_min_spec in Hm. destruct Hm as [_ Hle].
  specialize (Hle x Hx).
  replace (m =? nth 0 r 0) with false by (symmetry; apply Z.eqb_neq; lia).
  reflexivity.
Qed.

(** X10: of the rotations of a ring whose first external node is the least,
    the loop skips every one but the ring itself: the state is left as it
    is, so each magic ring is reported once. *)
Theorem X10_other_rotations_skipped
    (n : Z) (r : ring) (k : nat) (st : loop_state) :
  valid_n n ->
  Permutation r (entries n) ->
  (forall x, In x (externals n r) -> nth 0 r 0 <= x) ->
  (0 < k < Z.to_nat n)%nat ->
  loop_body n (constraints n) st (Nat.iter k (rotate_ring n) r) = Returned st.
Proof.
  intros Hv Hp Hc Hk.
  assert (Hn : 0 < n) by (apply valid_n_range in Hv; lia).
  assert (Hp' : Permutation (Nat.iter k (rotate_ring n) r) (entries n)).
  { eapply perm_trans; [|exact Hp]. apply rotate_iter_perm. lia. }
  assert (Hd : NoDup r).
  { apply (Permutation_NoDup (Permutation_sym Hp)). apply range_NoDup. }
  apply (skipped_when_not_least n _ (nth 0 r 0) st Hn Hp');
    clear Hp'; pose proof (Permutation_length Hp) as Hlen;
    valid_cases Hv.
  all: match type of Hlen with
       | _ = List.length (entries 3) =>
           change (List.length (entries 3)) with 6%nat in Hlen
       | _ = List.length (entries 4) =>
           change (List.length (entries 4)) with 8%nat in Hlen
       | _ = List.length (entries 5) =>
           change (List.length (entries 5)) with 10%nat in Hlen
       end;
       ring_of_length Hlen;
       inversion Hd as [|? ? Hfirst _]; subst; simpl in Hk;
       repeat (destruct k as [|k];
               [ try lia; turn_ring; simpl;
                 try tauto;
                 match goal with
                 | |- ?a < ?b =>
                     assert (a <= b) by (apply Hc; simpl; tauto);
                     assert (a <> b)
                       by (intros E; apply Hfirst; rewrite E; simpl; tauto);
                     lia
                 end
               | try lia ]).
Qed.

Lemma X10_other_rotations_skipped_witness :
  Nat.iter 2 (rotate_ring 3) [4; 6; 5; 3; 2; 1] = [5; 4; 6; 1; 3; 2] /\
  loop_body 3 (constraints 3) ([], 0)
            (Nat.iter 2 (rotate_ring 3) [4; 6; 5; 3; 2; 1])
  = Returned ([], 0).
Proof.
  split; [reflexivity|].
  apply (X10_other_rotations_skipped 3 [4; 6; 5; 3; 2; 1] 2 ([], 0)).
  - left. reflexivity.
  - apply NoDup_Permutation.
    + repeat constructor; simpl; intuition discriminate.
    + apply range_NoDup.
    + intros x. unfold entries. rewrite range_In. simpl. lia.
  - simpl. intuition lia.
  - simpl. lia.
Defined.
